(** * wikiserver: the step collection served by [server/server.js]

    A shallow embedding of the Express application of [server/server.js]
    and the properties of its specification.

    - JavaScript values that come out of [JSON.parse] are the inductive
      type [json]; a value that may be [undefined] is an [option json]
      ([None] is [undefined]).  Objects are finite maps from property
      names to values.
    - JavaScript numbers are kept abstract in the class [Numbers]: the
      program only tests them for truthiness and prints them.  They are
      the finite numbers, which [JSON.stringify] writes and [JSON.parse]
      reads back.  A numeral beyond the range of a double, such as
      [1e999], is read as [Infinity], which is truthy and which
      [JSON.stringify] writes as [null]: it is outside the model.
    - Strings are sequences of code units; the model covers the code
      units below 256.
    - Code that can raise an exception returns a [completion].  The
      exceptions are those the language prescribes for the program on
      JSON data.  Storage is ideal and so is the engine: a fault of the
      file system and the [RangeError] of a stack that runs out (on a
      value nested some ten thousand deep) are outside the model.
    - The asynchronous handlers thread the data file through the monad
      [io]; every call of [writeSteps] is also recorded in the trace
      [saves] of the [world].
    - What a handler reads from the clock and the random generator is
      given to it in an [env]. *)

From Stdlib Require Import Ascii String.
From stdpp Require Import gmap strings list fin_maps pretty.

Set Warnings "-register-all".

(** ** Numbers *)

(** The part of a finite JavaScript number the program observes:
    [ToBoolean] and [Number::toString].  [Infinity], which only a numeral
    beyond the range of a double gives, is not among them. *)
Class Numbers := {
  number : Type;
  number_truthy : number → bool;
  Number_toString : number → string
}.

(** ** Exceptions *)

(** What the program raises on JSON data by the rules of the language:
    the [TypeError] of [String] and of a property read of [null], the
    [SyntaxError] of [JSON.parse], and the [ENOENT] of [fs.access], which
    [ensureStorage] catches.  An I/O fault and a stack that runs out are
    not modelled. *)
Inductive exn := TypeError | SyntaxError | NoEntry.

Inductive completion (A : Type) :=
  | Normal (a : A)
  | Throw (e : exn).
Arguments Normal {A} a.
Arguments Throw {A} e.

#[export] Instance completion_ret : MRet completion := λ A a, Normal a.
#[export] Instance completion_bind : MBind completion := λ A B f m,
  match m with Normal a => f a | Throw e => Throw e end.
#[export] Instance completion_fmap : FMap completion := λ A B f m,
  match m with Normal a => Normal (f a) | Throw e => Throw e end.

(** ** Strings *)

(** [WhiteSpace] and [LineTerminator] code units below 256: TAB, LF, VT,
    FF, CR, SP and NBSP. *)
Definition is_white_space (c : ascii) : bool :=
  let n := N_of_ascii c in
  ((9 <=? n) && (n <=? 13) || (n =? 32) || (n =? 160))%N.

Fixpoint trimStart (s : string) : string :=
  match s with
  | EmptyString => EmptyString
  | String c r => if is_white_space c then trimStart r else s
  end.

Fixpoint trimEnd (s : string) : string :=
  match s with
  | EmptyString => EmptyString
  | String c r =>
      match trimEnd r with
      | EmptyString => if is_white_space c then EmptyString else String c EmptyString
      | r' => String c r'
      end
  end.

(** [String.prototype.trim] *)
Definition trim (s : string) : string := trimEnd (trimStart s).

(** [s.length > 0] *)
Definition nonempty (s : string) : bool :=
  match s with EmptyString => false | String _ _ => true end.

(** [s.slice(n)] for [n >= 0] *)
Fixpoint slice (n : nat) (s : string) : string :=
  match n, s with
  | S n', String _ r => slice n' r
  | _, _ => s
  end.

(** The characters of a string as one-character strings. *)
Fixpoint chars (s : string) : list string :=
  match s with
  | EmptyString => []
  | String c r => String c EmptyString :: chars r
  end.

Section Model.
Context `{Num : Numbers}.

(** ** JSON values *)

Inductive json : Type :=
  | JNull
  | JBool (b : bool)
  | JNum (n : number)
  | JStr (s : string)
  | JArr (l : list json)
  | JObj (m : gmap string json).

(** [ToBoolean]; [undefined] is falsy. *)
Definition truthy (o : option json) : bool :=
  match o with
  | None | Some JNull => false
  | Some (JBool b) => b
  | Some (JNum n) => number_truthy n
  | Some (JStr s) => nonempty s
  | Some (JArr _) | Some (JObj _) => true
  end.

(** [v != null], false for [null] and [undefined] only *)
Definition not_nullish (o : option json) : bool :=
  match o with
  | None | Some JNull => false
  | Some _ => true
  end.

(** [v?.k] for the property names the program reads ([id], [title],
    [category], [icon], [content], [commands], [vars], [key], [label],
    [placeholder]): none of them is a member of a prototype, an index or
    [length], so only an object that has the property itself yields a
    value. *)
Definition prop (v : json) (k : string) : option json :=
  match v with
  | JObj m => m !! k
  | _ => None
  end.

(** [s.k] without the [?.]: reading a property of [null] raises. *)
Definition member (v : json) (k : string) : completion (option json) :=
  match v with
  | JNull => Throw TypeError
  | _ => Normal (prop v k)
  end.

(** [String(v)], that is [ToString].  An array is joined with commas,
    [null] elements printing as the empty string.  An object prints as
    [[object Object]] through [Object.prototype.toString], unless it has
    a property [toString] of its own: a value read from JSON is never
    callable, so [OrdinaryToPrimitive] skips it, [valueOf] gives no
    primitive either, and a [TypeError] is raised. *)
Fixpoint ToString (v : json) : completion string :=
  match v with
  | JNull => Normal "null"
  | JBool b => Normal (if b then "true" else "false")
  | JNum n => Normal (Number_toString n)
  | JStr s => Normal s
  | JArr l =>
      (fix join (l : list json) : completion string :=
         match l with
         | [] => Normal ""
         | x :: r =>
             s ← match x with JNull => Normal "" | _ => ToString x end;
             match r with
             | [] => Normal s
             | _ :: _ => t ← join r; Normal (s +:+ "," +:+ t)
             end
         end) l
  | JObj m =>
      match m !! "toString" with
      | Some _ => Throw TypeError
      | None => Normal "[object Object]"
      end
  end.

(** [String(o)] where [o] may be [undefined] *)
Definition String_ (o : option json) : completion string :=
  match o with
  | None => Normal "undefined"
  | Some v => ToString v
  end.

(** The own enumerable properties that [{...v}] copies: the properties
    of an object, the elements of an array and the characters of a
    string under their indices. *)
Definition own_props (v : json) : gmap string json :=
  match v with
  | JObj m => m
  | JArr l => list_to_map (imap (λ i x, (pretty i, x)) l)
  | JStr s => list_to_map (imap (λ i c, (pretty i, JStr c)) (chars s))
  | _ => ∅
  end.

(** [b ?? {}] *)
Definition or_empty (b : option json) : json :=
  match b with
  | None | Some JNull => JObj ∅
  | Some v => v
  end.

(** A property whose value is [undefined] is left out by
    [JSON.stringify], in the data file and in the response alike. *)
Definition set_opt (k : string) (o : option json) (m : gmap string json)
  : gmap string json :=
  match o with
  | Some v => <[k := v]> m
  | None => delete k m
  end.

(** ** [normalizeVars] *)

Record vardef := VarDef {
  key : string;
  label : string;
  placeholder : option string
}.

(** The callback of [vars.map] *)
Definition cleanVar (v : json) : completion vardef :=
  k ← (if not_nullish (prop v "key")
       then trim <$> String_ (prop v "key") else Normal "");
  l ← (if not_nullish (prop v "label")
       then trim <$> String_ (prop v "label") else Normal "");
  p ← (if not_nullish (prop v "placeholder")
       then Some <$> String_ (prop v "placeholder") else Normal None);
  Normal (VarDef k l p).

(** The callback of [.filter] *)
Definition kept (v : vardef) : bool := nonempty (key v) && nonempty (label v).

Definition normalizeVars (vars : option json)
  : completion (option (list vardef)) :=
  match vars with
  | Some (JArr l) =>
      if decide (length l = 0) then Normal None
      else
        mapped ← mapM cleanVar l;
        let cleaned := filter kept mapped in
        Normal (if decide (length cleaned = 0) then None else Some cleaned)
  | _ => Normal None
  end.

(** A cleaned entry as [JSON.stringify] writes it. *)
Definition vardef_json (v : vardef) : json :=
  JObj (set_opt "placeholder" (JStr <$> placeholder v)
          (<["label" := JStr (label v)]> {["key" := JStr (key v)]})).

Definition vars_json (vs : list vardef) : json := JArr (vardef_json <$> vs).

(** [Array.isArray(c) && c.length ? c.map(String) : undefined], the
    expression both handlers apply to [commands]. *)
Definition normalizeCommands (c : option json) : completion (option json) :=
  match c with
  | Some (JArr l) =>
      if decide (length l = 0) then Normal None
      else ss ← mapM ToString l; Normal (Some (JArr (JStr <$> ss)))
  | _ => Normal None
  end.

(** ** The data file *)

(** The content of [data/steps.json] as [JSON.parse] sees it: text it
    rejects, or text it reads as the value [v].  [JSON.stringify] of a
    value writes text that is read back as that value. *)
Inductive document :=
  | Unparsable
  | Document (v : json).

(** [file] is [None] while [steps.json] does not exist.  [saves] records
    the argument of every [writeSteps], the latest first. *)
Record world := World {
  file : option document;
  saves : list (list json)
}.

Definition io (A : Type) : Type := world → completion A * world.

#[export] Instance io_ret : MRet io := λ A a w, (Normal a, w).
#[export] Instance io_bind : MBind io := λ A B f m w,
  match m w with
  | (Normal a, w') => f a w'
  | (Throw e, w') => (Throw e, w')
  end.

(** A computation without effects inside a handler *)
Definition lift {A} (c : completion A) : io A := λ w, (c, w).

(** [fs.access] succeeds when the file exists. *)
Definition fs_access : io bool :=
  λ w, (Normal (bool_decide (is_Some (file w))), w).

Definition fs_writeFile (d : document) : io unit :=
  λ w, (Normal (), World (Some d) (saves w)).

Definition fs_readFile : io document :=
  λ w, match file w with
       | Some d => (Normal d, w)
       | None => (Throw NoEntry, w)
       end.

Definition JSON_parse (d : document) : completion json :=
  match d with
  | Unparsable => Throw SyntaxError
  | Document v => Normal v
  end.

Definition ensureStorage : io unit :=
  present ← fs_access;
  if present : bool then mret () else fs_writeFile (Document (JArr [])).

Definition readSteps : io (list json) :=
  _ ← ensureStorage;
  raw ← fs_readFile;
  data ← lift (JSON_parse raw);
  mret (match data with JArr l => l | _ => [] end).

Definition record_save (steps : list json) : io unit :=
  λ w, (Normal (), World (file w) (steps :: saves w)).

Definition writeSteps (steps : list json) : io unit :=
  _ ← record_save steps;
  _ ← ensureStorage;
  fs_writeFile (Document (JArr steps)).

(** ** The handlers *)

(** What a request observes of the clock and of the random generator:
    [now_ms] is the text of [Date.now()] in the template of [newId],
    [random_hex] is [Math.random().toString(16)] and [now_iso] is
    [new Date().toISOString()]. *)
Record env := Env {
  now_ms : string;
  random_hex : string;
  now_iso : string
}.

Definition newId (e : env) : string :=
  now_ms e +:+ "-" +:+ slice 2 (random_hex e).

Record response := Response {
  status : nat;
  payload : option json
}.

Definition message (s : string) : json := JObj {["message" := JStr s]}.

Definition required_message : string :=
  "title, category, icon, content are required".

(** [!o.title || !o.category || !o.icon || !o.content] *)
Definition required_missing (o : json) : bool :=
  negb (truthy (prop o "title")) || negb (truthy (prop o "category"))
  || negb (truthy (prop o "icon")) || negb (truthy (prop o "content")).

(** [app.get('/health')] *)
Definition get_health : io response :=
  mret (Response 200 (Some (JObj {["ok" := JBool true]}))).

(** [app.get('/steps')] *)
Definition get_steps : io response :=
  steps ← readSteps;
  mret (Response 200 (Some (JArr steps))).

(** The object literal of [app.post('/steps')] as it is serialised. *)
Definition new_step (e : env) (b : json) : completion json :=
  title ← String_ (prop b "title");
  category ← String_ (prop b "category");
  icon ← String_ (prop b "icon");
  content ← String_ (prop b "content");
  commands ← normalizeCommands (prop b "commands");
  vars ← normalizeVars (prop b "vars");
  Normal (JObj
    (<["createdAt" := JStr (now_iso e)]>
    (set_opt "vars" (vars_json <$> vars)
    (set_opt "commands" commands
    (<["content" := JStr content]>
    (<["icon" := JStr icon]>
    (<["category" := JStr category]>
    (<["title" := JStr title]>
    {["id" := JStr (newId e)]})))))))).

(** [app.post('/steps')] *)
Definition post_steps (body : option json) (e : env) : io response :=
  let b := or_empty body in
  if required_missing b
  then mret (Response 400 (Some (message required_message)))
  else
    steps ← readSteps;
    step ← lift (new_step e b);
    _ ← writeSteps (step :: steps);
    mret (Response 201 (Some step)).

(** [v === id] for the string [id] of the path: equal strings only. *)
Definition strict_eq (v : option json) (id : string) : bool :=
  match v with
  | Some (JStr x) => bool_decide (x = id)
  | _ => false
  end.

(** [(s) => s.id === id] *)
Definition has_id (id : string) (s : json) : completion bool :=
  v ← member s "id";
  Normal (strict_eq v id).

(** [(s) => s.id !== id] *)
Definition lacks_id (id : string) (s : json) : completion bool :=
  v ← member s "id";
  Normal (negb (strict_eq v id)).

(** [Array.prototype.findIndex]; [None] is the result [-1]. *)
Fixpoint findIndex (p : json → completion bool) (l : list json)
  : completion (option nat) :=
  match l with
  | [] => Normal None
  | x :: r =>
      b ← p x;
      if b : bool then Normal (Some 0)
      else i ← findIndex p r; Normal (option_map S i)
  end.

(** [Array.prototype.filter] with a callback that may raise *)
Fixpoint filter_by (p : json → completion bool) (l : list json)
  : completion (list json) :=
  match l with
  | [] => Normal []
  | x :: r =>
      b ← p x;
      r' ← filter_by p r;
      Normal (if b : bool then x :: r' else r')
  end.

(** [{ ...old, ...patch, id, updatedAt }]; spreading [undefined] copies
    nothing. *)
Definition merged (old : option json) (patch : json) (id : string) (e : env)
  : gmap string json :=
  <["updatedAt" := JStr (now_iso e)]>
    (<["id" := JStr id]> (own_props patch ∪ from_option own_props ∅ old)).

(** The two [if (updated.x !== undefined)] blocks *)
Definition renormalize (u : gmap string json) : completion (gmap string json) :=
  u1 ← match u !! "commands" with
       | Some c => c' ← normalizeCommands (Some c); Normal (set_opt "commands" c' u)
       | None => Normal u
       end;
  match u1 !! "vars" with
  | Some v => v' ← normalizeVars (Some v); Normal (set_opt "vars" (vars_json <$> v') u1)
  | None => Normal u1
  end.

(** [app.put('/steps/:id')] *)
Definition put_steps (id : string) (body : option json) (e : env) : io response :=
  steps ← readSteps;
  idx ← lift (findIndex (has_id id) steps);
  match idx with
  | None => mret (Response 404 (Some (message "not found")))
  | Some i =>
      let patch := or_empty body in
      let updated := merged (steps !! i) patch id e in
      if required_missing (JObj updated)
      then mret (Response 400 (Some (message required_message)))
      else
        updated ← lift (renormalize updated);
        _ ← writeSteps (<[i := JObj updated]> steps);
        mret (Response 200 (Some (JObj updated)))
  end.

(** [app.delete('/steps/:id')] *)
Definition delete_steps (id : string) : io response :=
  steps ← readSteps;
  next ← lift (filter_by (lacks_id id) steps);
  if decide (length next = length steps)
  then mret (Response 404 (Some (message "not found")))
  else
    _ ← writeSteps next;
    mret (Response 204 None).

(** The routes of the application *)
Inductive request :=
  | GetHealth
  | GetSteps
  | PostSteps (body : option json)
  | PutSteps (id : string) (body : option json)
  | DeleteSteps (id : string).

Definition handle (rq : request) (e : env) : io response :=
  match rq with
  | GetHealth => get_health
  | GetSteps => get_steps
  | PostSteps body => post_steps body e
  | PutSteps id body => put_steps id body e
  | DeleteSteps id => delete_steps id
  end.

End Model.

(** The integers as numbers, for the examples: a safe integer is falsy
    when it is zero and prints in decimal. *)
#[export] Instance integer_numbers : Numbers := {|
  number := Z;
  number_truthy z := negb (z =? 0)%Z;
  Number_toString z := pretty z
|}.

Section Views.
Context `{Num : Numbers}.

(** ** The collection behind a world *)

(** What [readSteps] returns for a content of the file. *)
Definition load (f : option document) : completion (list json) :=
  match f with
  | None => Normal []
  | Some d =>
      data ← JSON_parse d;
      Normal (match data with JArr l => l | _ => [] end)
  end.

(** The world once [ensureStorage] has run. *)
Definition ensured (w : world) : world :=
  World (Some (default (Document (JArr [])) (file w))) (saves w).

(** The world once [writeSteps steps] has run. *)
Definition saved (steps : list json) (w : world) : world :=
  World (Some (Document (JArr steps))) (steps :: saves w).

Definition is_record (v : json) : Prop := ∃ m, v = JObj m.

(** The content is a sequence of records. *)
Definition well_formed_sequence (d : document) : Prop :=
  ∃ l, d = Document (JArr l) ∧ Forall is_record l.

(** The record [s] carries the identifier [id]. *)
Definition matching (id : string) (s : json) : bool :=
  strict_eq (prop s "id") id.

(** The invariant of the specification on a persisted Step: [title],
    [category], [icon] and [content] are non-empty strings. *)
Definition required_fields : list string :=
  ["title"; "category"; "icon"; "content"].

Definition required_strings (s : json) : Prop :=
  ∀ k, k ∈ required_fields → ∃ t, prop s k = Some (JStr t) ∧ t ≠ "".

(** The fields the update handler sets by itself. *)
Definition managed_fields : list string :=
  ["id"; "updatedAt"; "commands"; "vars"].

(** The value a shallow merge gives the field [k]: that of the patch
    when the patch has the field, that of the existing record
    otherwise. *)
Definition shallow (patch : json) (old : gmap string json) (k : string)
  : option json :=
  match own_props patch !! k with
  | Some v => Some v
  | None => old !! k
  end.

(** ** The callback of [vars.map] by cases

    A field that is [null] or absent gives the empty string (no
    placeholder); any other is printed by [String], which may raise. *)

Definition coerce_text (field : option json) : completion string :=
  match field with
  | None | Some JNull => Normal ""
  | Some v => s ← ToString v; Normal (trim s)
  end.

Definition coerce_placeholder (field : option json) : completion (option string) :=
  match field with
  | None | Some JNull => Normal None
  | Some v => s ← ToString v; Normal (Some s)
  end.

Definition coerce_element (v : json) : completion vardef :=
  k ← coerce_text (prop v "key");
  l ← coerce_text (prop v "label");
  p ← coerce_placeholder (prop v "placeholder");
  Normal {| key := k; label := l; placeholder := p |}.

(** ** The normalisation of the specification

    Written after the words of the specification, for which "no error
    is ever raised by this operation": every function here is total. *)

(** "Stringified": a scalar prints as [String] prints it, a sequence as
    its elements joined by commas ([null] as nothing), and a record as
    [[object Object]], whatever its properties. *)
Fixpoint stringified (v : json) : string :=
  match v with
  | JNull => "null"
  | JBool true => "true"
  | JBool false => "false"
  | JNum n => Number_toString n
  | JStr s => s
  | JArr l =>
      (fix joined (l : list json) : string :=
         match l with
         | [] => ""
         | [x] => match x with JNull => "" | _ => stringified x end
         | x :: r =>
             match x with JNull => "" | _ => stringified x end
             +:+ "," +:+ joined r
         end) l
  | JObj _ => "[object Object]"
  end.

(** "Whitespace-trimmed": the white space before the first and after
    the last other character is removed. *)
Fixpoint strip_white_space (l : list ascii) : list ascii :=
  match l with
  | [] => []
  | c :: r => if is_white_space c then strip_white_space r else l
  end.

Definition whitespace_trimmed (s : string) : string :=
  string_of_list_ascii
    (reverse (strip_white_space
       (reverse (strip_white_space (list_ascii_of_string s))))).

(** "[key] and [label] are stringified and whitespace-trimmed (or
    become empty string if null/absent)." *)
Definition spec_text (field : option json) : string :=
  match field with
  | None | Some JNull => ""
  | Some v => whitespace_trimmed (stringified v)
  end.

(** "[placeholder] is stringified if present, otherwise left absent." *)
Definition spec_placeholder (field : option json) : option string :=
  match field with
  | None | Some JNull => None
  | Some v => Some (stringified v)
  end.

(** "Each element is coerced." *)
Definition coerced (v : json) : vardef :=
  {| key := spec_text (prop v "key");
     label := spec_text (prop v "label");
     placeholder := spec_placeholder (prop v "placeholder") |}.

(** "Elements where trimmed [key] or trimmed [label] is empty are
    discarded." *)
Definition discarded (d : vardef) : bool :=
  match key d, label d with
  | EmptyString, _ | _, EmptyString => true
  | _, _ => false
  end.

(** "If the input is not a non-empty sequence, result is absent. [...]
    If after discarding the result is empty, the overall result is
    absent; otherwise it is the filtered, order-preserving sequence." *)
Definition normalizeVars_spec (vars : option json) : option (list vardef) :=
  match vars with
  | Some (JArr (v :: rest)) =>
      match filter (λ d, discarded d = false) (coerced <$> v :: rest) with
      | [] => None
      | ds => Some ds
      end
  | _ => None
  end.

(** ** When [String] raises nothing *)

(** The computation ends without raising. *)
Definition returns {A} (c : completion A) : Prop := ∃ a, c = Normal a.

(** The element of an array as [join] prints it. *)
Definition element_string (x : json) : completion string :=
  match x with JNull => Normal "" | _ => ToString x end.

(** [Array.prototype.join] with the separator [","], as [ToString] runs
    it on an array. *)
Fixpoint join (l : list json) : completion string :=
  match l with
  | [] => Normal ""
  | x :: r =>
      s ← element_string x;
      match r with
      | [] => Normal s
      | _ :: _ => t ← join r; Normal (s +:+ "," +:+ t)
      end
  end.

(** No object with a property [toString] of its own is printed: the
    value is not such an object, nor is an element of an array in it. *)
Fixpoint printable (v : json) : bool :=
  match v with
  | JArr l => forallb printable l
  | JObj m => match m !! "toString" with Some _ => false | None => true end
  | _ => true
  end.

Definition field_printable (o : option json) : bool :=
  match o with Some v => printable v | None => true end.

(** The three fields that [normalizeVars] prints of an entry. *)
Definition entry_printable (v : json) : bool :=
  field_printable (prop v "key") && field_printable (prop v "label")
  && field_printable (prop v "placeholder").

(** [String(o)] raises no error. *)
Definition stringifies (o : option json) : bool :=
  match String_ o with Normal _ => true | Throw _ => false end.

(** [String] raises no error on the key, the label and the placeholder
    of the entry. *)
Definition entry_stringifies (v : json) : bool :=
  stringifies (prop v "key") && stringifies (prop v "label")
  && stringifies (prop v "placeholder").

(** [String] raises no error on the key, the label and the placeholder
    of any element of the input. *)
Definition vars_stringify (vars : option json) : bool :=
  match vars with
  | Some (JArr l) => forallb entry_stringifies l
  | _ => true
  end.

(** ** The worlds the requests lead to *)

(** The world before the first request: no data file yet. *)
Definition initial : world := World None [].

Inductive reachable : world → Prop :=
  | reachable_initial : reachable initial
  | reachable_request (w : world) (rq : request) (e : env) :
      reachable w → reachable (handle rq e w).2.

(** ** Observations of a run *)

(** The status a handler answered with. *)
Definition answered (run : completion response * world) : completion nat :=
  status <$> run.1.

(** The field [k] of the record a handler answered with. *)
Definition answered_field (k : string) (run : completion response * world)
  : completion (option json) :=
  (λ r, match payload r with Some p => prop p k | None => None end) <$> run.1.

(** The field [k] of every record of the collection, in order. *)
Definition stored_field (k : string) (w : world)
  : completion (list (option json)) :=
  (λ steps : list json, (λ s, prop s k) <$> steps) <$> load (file w).

End Views.

Section Samples.
Context `{Num : Numbers}.

(** ** Sample data *)

Definition object (l : list (string * json)) : json := JObj (list_to_map l).

(** A data file whose text is not JSON. *)
Definition corrupted : world := World (Some Unparsable) [].

Definition sample_env : env :=
  Env "1700000000000" "0.8f3a1c" "2024-01-01T00:00:00.000Z".

Definition later_env : env :=
  Env "1700000000000" "0.c41d07" "2024-01-01T00:00:05.000Z".

(** [[{key:"p",label:"Path"},{key:"",label:"x"}]] *)
Definition sample_vars : json :=
  JArr [object [("key", JStr "p"); ("label", JStr "Path")];
        object [("key", JStr ""); ("label", JStr "x")]].

(** [[{key:{toString:true},label:"x"}]] *)
Definition shadowing_vars : json :=
  JArr [object [("key", object [("toString", JBool true)]);
                ("label", JStr "x")]].

(** [[{key:"",label:"x",placeholder:{toString:true}}]] *)
Definition discarded_shadowing_vars : json :=
  JArr [object [("key", JStr ""); ("label", JStr "x");
                ("placeholder", object [("toString", JBool true)])]].

(** [[{key:"  p ",label:" Path to file  ",placeholder:" /tmp "}, null,
      {key:["a",null,"b"],label:true}, {key:" ",label:"x"},
      {key:{},label:{a:null},placeholder:null}]] *)
Definition spaced_vars : json :=
  JArr [object [("key", JStr "  p "); ("label", JStr " Path to file  ");
                ("placeholder", JStr " /tmp ")];
        JNull;
        object [("key", JArr [JStr "a"; JNull; JStr "b"]);
                ("label", JBool true)];
        object [("key", JStr " "); ("label", JStr "x")];
        object [("key", object []); ("label", object [("a", JNull)]);
                ("placeholder", JNull)]].

Definition sample_body : json :=
  object [("title", JStr "Copy"); ("category", JStr "files");
          ("icon", JStr "copy"); ("content", JStr "Copy the file");
          ("commands", JArr [JStr "cp {{p}} /tmp"]); ("vars", sample_vars)].

(** [title] is the empty array, which is truthy and prints as [""]. *)
Definition empty_title_body : json :=
  object [("title", JArr []); ("category", JStr "files");
          ("icon", JStr "copy"); ("content", JStr "Copy the file")].

(** A record as the create handler stores it. *)
Definition stored_fields : gmap string json :=
  list_to_map
    [("id", JStr "1700000000000-8f3a1c"); ("title", JStr "Copy");
     ("category", JStr "files"); ("icon", JStr "copy");
     ("content", JStr "Copy the file");
     ("commands", JArr [JStr "cp {{p}} /tmp"]);
     ("createdAt", JStr "2024-01-01T00:00:00.000Z")].

Definition other_fields : gmap string json :=
  list_to_map
    [("id", JStr "1690000000000-11aa22"); ("title", JStr "Move");
     ("category", JStr "files"); ("icon", JStr "move");
     ("content", JStr "Move the file");
     ("createdAt", JStr "2023-07-22T04:26:40.000Z")].

(** A data file with two records. *)
Definition two_steps : list json := [JObj other_fields; JObj stored_fields].

Definition stocked : world := World (Some (Document (JArr two_steps))) [].

Definition other_body : json :=
  object [("title", JStr "Move"); ("category", JStr "files");
          ("icon", JStr "move"); ("content", JStr "Move the file")].

(** [title] is an object with a property [toString] of its own. *)
Definition shadowing_body : json :=
  object [("title", object [("toString", JBool true)]);
          ("category", JStr "files"); ("icon", JStr "copy");
          ("content", JStr "Copy the file")].

(** [{title:"Copy a file", id:"other"}] *)
Definition title_patch : json :=
  object [("title", JStr "Copy a file"); ("id", JStr "other")].

(** [{title:true}] *)
Definition boolean_title_patch : json := object [("title", JBool true)].

(** [{commands:[]}] *)
Definition empty_commands_patch : json := object [("commands", JArr [])].

(** The record [stored_fields] merged with [title_patch] under its own
    identifier, before and after the renormalisation. *)
Definition merged_sample : gmap string json :=
  merged (Some (JObj stored_fields)) title_patch "1700000000000-8f3a1c"
    later_env.

Definition updated_sample : gmap string json :=
  set_opt "vars" None
    (set_opt "commands" (Some (JArr [JStr "cp {{p}} /tmp"])) merged_sample).

(** The world after one create request on the initial world. *)
Definition once_created : world :=
  (post_steps (Some sample_body) sample_env initial).2.

(** The world after a second create request that reads the same clock
    and draws the same random number. *)
Definition twice_created : world :=
  (post_steps (Some other_body) sample_env once_created).2.

End Samples.

(** [Date.now()] prints as decimal digits. *)
Definition is_digit (c : ascii) : bool :=
  let n := N_of_ascii c in ((48 <=? n) && (n <=? 57))%N.

Fixpoint all_digits (s : string) : bool :=
  match s with
  | EmptyString => true
  | String c r => is_digit c && all_digits r
  end.


(** ** What the handlers keep *)

Section Kept.
Context `{Num : Numbers}.

(** The string has no white space at its start. *)
Definition clean_start (s : string) : Prop :=
  match s with
  | EmptyString => True
  | String c _ => is_white_space c = false
  end.

(** An entry as [normalizeVars] lets it through: a key and a label that
    are not empty and that [trim] leaves as they are. *)
Definition clean_entry (d : vardef) : Prop :=
  key d ≠ EmptyString ∧ label d ≠ EmptyString
  ∧ trim (key d) = key d ∧ trim (label d) = label d.

(** The field [commands] as the handlers store it: absent, or an array
    of strings that is not empty. *)
Definition normal_commands (o : option json) : Prop :=
  o = None ∨ ∃ ss : list string, ss ≠ [] ∧ o = Some (JArr (JStr <$> ss)).

(** The field [vars] as the handlers store it: absent, or the entries
    [normalizeVars] let through, at least one. *)
Definition normal_vars (o : option json) : Prop :=
  o = None
  ∨ ∃ vs : list vardef, vs ≠ [] ∧ Forall clean_entry vs ∧ o = Some (vars_json vs).

(** What every handler keeps of a record it stores: the identifier is
    a string, [createdAt] and the four required fields are there, and
    [commands] and [vars] are as the handlers store them.  Of the value
    of a required field nothing is kept: an update stores what the patch
    gives. *)
Definition kept_record (s : json) : Prop :=
  ∃ m, s = JObj m
       ∧ (∃ id, m !! "id" = Some (JStr id))
       ∧ is_Some (m !! "createdAt")
       ∧ (∀ k, k ∈ required_fields → is_Some (m !! k))
       ∧ normal_commands (m !! "commands")
       ∧ normal_vars (m !! "vars").

(** The only exception the computation can raise is a [TypeError]. *)
Definition raises_TypeError {A} (c : completion A) : Prop :=
  ∀ x, c = Throw x → x = TypeError.

(** The data file holds what was saved last; before the first save
    there is no file or it holds the empty array. *)
Definition file_is_last_save (w : world) : Prop :=
  match saves w with
  | [] => file w = None ∨ file w = Some (Document (JArr []))
  | s :: _ => file w = Some (Document (JArr s))
  end.

(** No object with a property [toString] of its own is printed by the
    create handler for the body [b]. *)
Definition body_printable (b : json) : bool :=
  field_printable (prop b "title") && field_printable (prop b "category")
  && field_printable (prop b "icon") && field_printable (prop b "content")
  && match prop b "commands" with
     | Some (JArr l) => forallb printable l
     | _ => true
     end
  && match prop b "vars" with
     | Some (JArr l) => forallb entry_printable l
     | _ => true
     end.

(** No object with a property [toString] of its own is printed by the
    update handler for the patch [p]: the record it is merged with is
    one the handlers stored. *)
Definition patch_printable (p : json) : bool :=
  match own_props p !! "commands" with
  | Some (JArr l) => forallb printable l
  | _ => true
  end
  && match own_props p !! "vars" with
     | Some (JArr l) => forallb entry_printable l
     | _ => true
     end.

(** The fields of the object the create handler builds. *)
Definition created_fields : list string :=
  ["id"; "title"; "category"; "icon"; "content"; "commands"; "vars";
   "createdAt"].

(** The request is a create, an update or a delete. *)
Definition mutation (rq : request) : bool :=
  match rq with
  | PostSteps _ | PutSteps _ _ | DeleteSteps _ => true
  | _ => false
  end.

Definition request_printable (rq : request) : bool :=
  match rq with
  | PostSteps body => body_printable (or_empty body)
  | PutSteps _ body => patch_printable (or_empty body)
  | _ => true
  end.

End Kept.

Section MoreSamples.
Context `{Num : Numbers}.

(** [["ls", true]] *)
Definition mixed_commands : json := JArr [JStr "ls"; JBool true].

(** The record [stored_fields] with a later [updatedAt]. *)
Definition touched_fields : gmap string json :=
  <["updatedAt" := JStr (now_iso later_env)]> stored_fields.

End MoreSamples.
Section Properties.
Context `{Num : Numbers}.

(** ** Storage *)

Lemma readSteps_run (w : world) : readSteps w = (load (file w), ensured w).
Proof. by destruct w as [[[|v]|] sv]. Qed.

Lemma writeSteps_run (steps : list json) (w : world) :
  writeSteps steps w = (Normal (), saved steps w).
Proof. by destruct w as [[d|] sv]. Qed.

Lemma load_ensured (w : world) : load (file (ensured w)) = load (file w).
Proof. by destruct w as [[d|] sv]. Qed.

(** C2, as the code has it: [readSteps] answers with the empty sequence
    when there is no file yet (it creates one) and when the content is
    read as a value that is not an array; an array is returned as it
    is, whatever its elements; content that [JSON.parse] rejects makes
    [readSteps] raise the [SyntaxError]. *)
Theorem readSteps_cases (w : world) :
  match file w with
  | None =>
      readSteps w = (Normal [], World (Some (Document (JArr []))) (saves w))
  | Some Unparsable => readSteps w = (Throw SyntaxError, w)
  | Some (Document (JArr l)) => readSteps w = (Normal l, w)
  | Some (Document _) => readSteps w = (Normal [], w)
  end.
Proof.
  destruct w as [[[|v]|] sv]; cbn [file saves]; try reflexivity.
  destruct v; reflexivity.
Qed.

(** ** [normalizeVars] *)

Lemma clean_text (o : option json) :
  (if not_nullish o then trim <$> String_ o else Normal "") = coerce_text o.
Proof.
  destruct o as [v|]; [|reflexivity].
  destruct v; try reflexivity; cbn; by destruct (ToString _).
Qed.

Lemma clean_placeholder (o : option json) :
  (if not_nullish o then Some <$> String_ o else Normal None)
  = coerce_placeholder o.
Proof.
  destruct o as [v|]; [|reflexivity].
  destruct v; try reflexivity; cbn; by destruct (ToString _).
Qed.

Lemma cleanVar_coerce (v : json) : cleanVar v = coerce_element v.
Proof.
  unfold cleanVar, coerce_element.
  by rewrite !clean_text, clean_placeholder.
Qed.

(** ** The handlers as case analyses *)

Lemma post_steps_run (body : option json) (e : env) (w : world) :
  post_steps body e w =
  if required_missing (or_empty body)
  then (Normal (Response 400 (Some (message required_message))), w)
  else match load (file w) with
       | Throw x => (Throw x, ensured w)
       | Normal steps =>
           match new_step e (or_empty body) with
           | Throw x => (Throw x, ensured w)
           | Normal step =>
               (Normal (Response 201 (Some step)),
                saved (step :: steps) (ensured w))
           end
       end.
Proof.
  unfold post_steps. destruct (required_missing _); [reflexivity|].
  unfold mbind at 1, io_bind. rewrite readSteps_run.
  destruct (load (file w)) as [steps|x]; [|reflexivity].
  unfold mbind at 1, io_bind, lift.
  destruct (new_step e _) as [step|x]; [|reflexivity].
  unfold mbind, io_bind. by rewrite writeSteps_run.
Qed.

Lemma put_steps_run (id : string) (body : option json) (e : env) (w : world) :
  put_steps id body e w =
  match load (file w) with
  | Throw x => (Throw x, ensured w)
  | Normal steps =>
      match findIndex (has_id id) steps with
      | Throw x => (Throw x, ensured w)
      | Normal None =>
          (Normal (Response 404 (Some (message "not found"))), ensured w)
      | Normal (Some i) =>
          let u := merged (steps !! i) (or_empty body) id e in
          if required_missing (JObj u)
          then (Normal (Response 400 (Some (message required_message))),
                ensured w)
          else match renormalize u with
               | Throw x => (Throw x, ensured w)
               | Normal u' =>
                   (Normal (Response 200 (Some (JObj u'))),
                    saved (<[i := JObj u']> steps) (ensured w))
               end
      end
  end.
Proof.
  unfold put_steps.
  unfold mbind at 1, io_bind. rewrite readSteps_run.
  destruct (load (file w)) as [steps|x]; [|reflexivity].
  unfold mbind at 1, io_bind, lift.
  destruct (findIndex _ steps) as [[i|]|x]; try reflexivity.
  cbn zeta. destruct (required_missing _); [reflexivity|].
  unfold mbind at 1, io_bind.
  destruct (renormalize _) as [u'|x]; [|reflexivity].
  unfold mbind, io_bind. by rewrite writeSteps_run.
Qed.

Lemma delete_steps_run (id : string) (w : world) :
  delete_steps id w =
  match load (file w) with
  | Throw x => (Throw x, ensured w)
  | Normal steps =>
      match filter_by (lacks_id id) steps with
      | Throw x => (Throw x, ensured w)
      | Normal next =>
          if decide (length next = length steps)
          then (Normal (Response 404 (Some (message "not found"))), ensured w)
          else (Normal (Response 204 None), saved next (ensured w))
      end
  end.
Proof.
  unfold delete_steps.
  unfold mbind at 1, io_bind. rewrite readSteps_run.
  destruct (load (file w)) as [steps|x]; [|reflexivity].
  unfold mbind at 1, io_bind, lift.
  destruct (filter_by _ steps) as [next|x]; [|reflexivity].
  destruct (decide _); [reflexivity|].
  unfold mbind, io_bind. by rewrite writeSteps_run.
Qed.

Lemma get_steps_run (w : world) :
  get_steps w =
  match load (file w) with
  | Throw x => (Throw x, ensured w)
  | Normal steps => (Normal (Response 200 (Some (JArr steps))), ensured w)
  end.
Proof.
  unfold get_steps, mbind, io_bind. rewrite readSteps_run.
  by destruct (load (file w)).
Qed.

(** ** Searching the collection *)

Lemma has_id_matching (id : string) (s : json) :
  s ≠ JNull → has_id id s = Normal (matching id s).
Proof. by destruct s. Qed.

Lemma lacks_id_matching (id : string) (s : json) :
  s ≠ JNull → lacks_id id s = Normal (negb (matching id s)).
Proof. by destruct s. Qed.

Lemma matching_record (id : string) (s : json) :
  matching id s = true ↔ ∃ m, s = JObj m ∧ m !! "id" = Some (JStr id).
Proof.
  unfold matching, strict_eq. split.
  - destruct s as [| | | | |m]; try discriminate. cbn.
    destruct (m !! "id") as [[| | |x| |]|] eqn:E; try discriminate.
    intros ->%bool_decide_eq_true. eauto.
  - intros (m & -> & E). cbn. rewrite E. by apply bool_decide_eq_true.
Qed.

Lemma has_id_true (id : string) (s : json) :
  has_id id s = Normal true → ∃ m, s = JObj m ∧ m !! "id" = Some (JStr id).
Proof.
  destruct s as [| | | | |m]; try discriminate.
  rewrite has_id_matching by done. intros [= E]. by apply matching_record.
Qed.

Lemma findIndex_Some (p : json → completion bool) (l : list json) (i : nat) :
  findIndex p l = Normal (Some i) →
  ∃ x, l !! i = Some x ∧ p x = Normal true
       ∧ ∀ j y, j < i → l !! j = Some y → p y = Normal false.
Proof.
  revert i. induction l as [|x l IH]; intros i; [discriminate|].
  cbn [findIndex]. destruct (p x) as [[|]|] eqn:Hp; cbn; try discriminate.
  - intros [= <-]. exists x. repeat split; [done|]. intros j y Hj. lia.
  - destruct (findIndex p l) as [[k|]|]; cbn; try discriminate.
    intros [= <-]. destruct (IH k eq_refl) as (y & Hy & Hpy & Hlt).
    exists y. repeat split; [done..|].
    intros [|j] z Hj; cbn; [by intros [= <-]|].
    apply Hlt. lia.
Qed.

Lemma filter_by_lacks (id : string) (l : list json) :
  Forall (λ s, s ≠ JNull) l →
  filter_by (lacks_id id) l = Normal (filter (λ s, ¬ matching id s) l).
Proof.
  induction 1 as [|s l Hs _ IH]; [reflexivity|].
  cbn [filter_by]. rewrite lacks_id_matching, IH, filter_cons by done.
  by destruct (matching id s).
Qed.

Lemma length_filter_split (id : string) (l : list json) :
  length (filter (λ s, ¬ matching id s) l)
  + length (filter (λ s, matching id s) l) = length l.
Proof.
  induction l as [|s l IH]; [reflexivity|].
  rewrite !filter_cons.
  destruct (matching id s); repeat case_decide; cbn in *; try tauto; lia.
Qed.

(** ** Merging and renormalising *)

Lemma lookup_set_opt (k j : string) (o : option json) (m : gmap string json) :
  set_opt k o m !! j = if decide (k = j) then o else m !! j.
Proof.
  destruct o as [v|]; cbn.
  - by rewrite lookup_insert.
  - by rewrite lookup_delete.
Qed.

(** Looks a field up in a record built by insertions. *)
Ltac lookup_field :=
  repeat first
    [ rewrite lookup_insert_eq
    | rewrite lookup_insert_ne by done
    | rewrite lookup_singleton_eq
    | rewrite lookup_singleton_ne by done
    | rewrite lookup_set_opt
    | rewrite decide_True by done
    | rewrite decide_False by done ];
  try done.

Lemma set_opt_absent (k : string) (m : gmap string json) :
  m !! k = None → set_opt k None m = m.
Proof. intros E. cbn. by apply delete_id. Qed.

Lemma renormalize_run (u : gmap string json) :
  renormalize u =
  (c ← normalizeCommands (u !! "commands");
   v ← normalizeVars (u !! "vars");
   Normal (set_opt "vars" (vars_json <$> v) (set_opt "commands" c u))).
Proof.
  unfold renormalize.
  destruct (u !! "commands") as [c0|] eqn:Hc.
  - destruct (normalizeCommands (Some c0)) as [c|x]; [|reflexivity].
    cbn -[set_opt]. rewrite lookup_set_opt. cbn -[set_opt].
    destruct (u !! "vars") as [v0|] eqn:Hv; [reflexivity|].
    cbn -[set_opt]. f_equal. symmetry. apply set_opt_absent.
    by rewrite lookup_set_opt.
  - cbn -[set_opt]. rewrite (set_opt_absent "commands") by done.
    destruct (u !! "vars") as [v0|] eqn:Hv; [reflexivity|].
    cbn -[set_opt]. by rewrite set_opt_absent.
Qed.

Lemma renormalize_fields (u u' : gmap string json) :
  renormalize u = Normal u' →
  ∃ c v, normalizeCommands (u !! "commands") = Normal c
         ∧ normalizeVars (u !! "vars") = Normal v
         ∧ u' !! "commands" = c
         ∧ u' !! "vars" = vars_json <$> v
         ∧ ∀ k, k ≠ "commands" → k ≠ "vars" → u' !! k = u !! k.
Proof.
  rewrite renormalize_run.
  destruct (normalizeCommands _) as [c|]; [|discriminate].
  destruct (normalizeVars _) as [v|]; [|discriminate].
  cbn -[set_opt]. intros [= <-]. exists c, v. repeat split.
  - by rewrite !lookup_set_opt.
  - by rewrite !lookup_set_opt.
  - intros k H1 H2. rewrite !lookup_set_opt.
    by rewrite !decide_False by done.
Qed.

Lemma merged_id (old : option json) (patch : json) (id : string) (e : env) :
  merged old patch id e !! "id" = Some (JStr id).
Proof. unfold merged. by rewrite lookup_insert_ne, lookup_insert_eq. Qed.

Lemma merged_updatedAt (old : option json) (patch : json) (id : string) (e : env) :
  merged old patch id e !! "updatedAt" = Some (JStr (now_iso e)).
Proof. unfold merged. by rewrite lookup_insert_eq. Qed.

Lemma merged_shallow (old : gmap string json) (patch : json) (id : string)
    (e : env) (k : string) :
  k ≠ "id" → k ≠ "updatedAt" →
  merged (Some (JObj old)) patch id e !! k = shallow patch old k.
Proof.
  intros H1 H2. unfold merged, shallow. cbn.
  rewrite !lookup_insert_ne, lookup_union by done.
  by destruct (own_props patch !! k), (old !! k).
Qed.

(** ** Failures *)

Lemma ensured_quiet (w : world) :
  saves (ensured w) = saves w
  ∧ load (file (ensured w)) = load (file w)
  ∧ (ensured w = w ∨ ensured w = ensured w).
Proof. split; [done|]. split; [apply load_ensured|by right]. Qed.

(** The failures of the specification do answer 400 and 404. *)
Lemma post_steps_missing (body : option json) (e : env) (w : world) :
  required_missing (or_empty body) = true →
  post_steps body e w
  = (Normal (Response 400 (Some (message required_message))), w).
Proof. intros E. by rewrite post_steps_run, E. Qed.

Lemma findIndex_absent (id : string) (l : list json) :
  Forall (λ s, s ≠ JNull ∧ matching id s = false) l →
  findIndex (has_id id) l = Normal None.
Proof.
  induction 1 as [|s l [Hs Hm] _ IH]; [reflexivity|].
  cbn [findIndex]. rewrite has_id_matching, Hm by done. cbn. by rewrite IH.
Qed.

Lemma put_steps_unknown (id : string) (body : option json) (e : env)
    (w : world) (steps : list json) :
  load (file w) = Normal steps →
  Forall (λ s, s ≠ JNull ∧ matching id s = false) steps →
  put_steps id body e w
  = (Normal (Response 404 (Some (message "not found"))), ensured w).
Proof.
  intros E H. by rewrite put_steps_run, E, findIndex_absent.
Qed.

Lemma put_steps_invalid (id : string) (body : option json) (e : env)
    (w : world) (steps : list json) (i : nat) :
  load (file w) = Normal steps →
  findIndex (has_id id) steps = Normal (Some i) →
  required_missing (JObj (merged (steps !! i) (or_empty body) id e)) = true →
  put_steps id body e w
  = (Normal (Response 400 (Some (message required_message))), ensured w).
Proof. intros E1 E2 E3. rewrite put_steps_run, E1, E2. cbn zeta. by rewrite E3. Qed.

Lemma filter_none_matching (id : string) (l : list json) :
  Forall (λ s, matching id s = false) l →
  filter (λ s, ¬ matching id s) l = l.
Proof.
  induction 1 as [|s l Hs _ IH]; [reflexivity|].
  rewrite filter_cons, IH. case_decide as Hd; [done|].
  rewrite Hs in Hd. cbn in Hd. tauto.
Qed.

Lemma delete_steps_unknown (id : string) (w : world) (steps : list json) :
  load (file w) = Normal steps →
  Forall (λ s, s ≠ JNull ∧ matching id s = false) steps →
  delete_steps id w
  = (Normal (Response 404 (Some (message "not found"))), ensured w).
Proof.
  intros E H. apply Forall_and in H as [H1 H2].
  rewrite delete_steps_run, E, filter_by_lacks, filter_none_matching by done.
  by rewrite decide_True.
Qed.

(** C6: a request that is answered with 400 or 404 saves nothing: no
    [writeSteps] takes place and the collection behind the file is the
    one before the request (the file itself is as before, or has just
    been created empty by [ensureStorage]). *)
Theorem failure_saves_nothing (rq : request) (e : env) (w w' : world)
    (r : response) :
  handle rq e w = (Normal r, w') →
  status r = 400 ∨ status r = 404 →
  saves w' = saves w
  ∧ load (file w') = load (file w)
  ∧ (w' = w ∨ w' = ensured w).
Proof.
  intros Hrun Hst.
  assert (∀ n, status r = n → n ≠ 400 → n ≠ 404 → False) as Hno
    by (intros n En; destruct Hst; lia).
  pose proof (ensured_quiet w) as Hq.
  destruct rq as [| |body|id body|id]; cbn [handle] in Hrun.
  - injection Hrun as <- <-. by destruct (Hno 200).
  - rewrite get_steps_run in Hrun.
    destruct (load (file w)); [|discriminate].
    injection Hrun as <- <-. by destruct (Hno 200).
  - rewrite post_steps_run in Hrun.
    destruct (required_missing _).
    { injection Hrun as <- <-. repeat split; by left. }
    destruct (load (file w)); [|discriminate].
    destruct (new_step _ _); [|discriminate].
    injection Hrun as <- <-. by destruct (Hno 201).
  - rewrite put_steps_run in Hrun.
    destruct (load (file w)) as [steps|]; [|discriminate].
    destruct (findIndex _ steps) as [[i|]|]; [| |discriminate].
    + cbn zeta in Hrun. destruct (required_missing _).
      { injection Hrun as <- <-. exact Hq. }
      destruct (renormalize _); [|discriminate].
      injection Hrun as <- <-. by destruct (Hno 200).
    + injection Hrun as <- <-. exact Hq.
  - rewrite delete_steps_run in Hrun.
    destruct (load (file w)) as [steps|]; [|discriminate].
    destruct (filter_by _ steps) as [next|]; [|discriminate].
    destruct (decide _).
    + injection Hrun as <- <-. exact Hq.
    + injection Hrun as <- <-. by destruct (Hno 204).
Qed.

(** ** Update *)

Lemma put_steps_found (id : string) (body : option json) (e : env)
    (w : world) (steps : list json) (i : nat) (u : gmap string json) :
  load (file w) = Normal steps →
  findIndex (has_id id) steps = Normal (Some i) →
  required_missing (JObj (merged (steps !! i) (or_empty body) id e)) = false →
  renormalize (merged (steps !! i) (or_empty body) id e) = Normal u →
  put_steps id body e w
  = (Normal (Response 200 (Some (JObj u))),
     saved (<[i := JObj u]> steps) (ensured w)).
Proof.
  intros E1 E2 E3 E4. rewrite put_steps_run, E1, E2. cbn zeta.
  by rewrite E3, E4.
Qed.

(** C10: a successful update writes the merged record at the position
    of the record it found, the first one that carries the identifier,
    and leaves every other position of the sequence as it was. *)
Theorem put_steps_keeps_position (id : string) (body : option json) (e : env)
    (w w' : world) (r : response) :
  put_steps id body e w = (Normal r, w') →
  status r = 200 →
  ∃ steps i old u,
    load (file w) = Normal steps
    ∧ steps !! i = Some (JObj old)
    ∧ old !! "id" = Some (JStr id)
    ∧ payload r = Some (JObj u)
    ∧ u !! "id" = Some (JStr id)
    ∧ load (file w') = Normal (<[i := JObj u]> steps)
    ∧ saves w' = <[i := JObj u]> steps :: saves w
    ∧ length (<[i := JObj u]> steps) = length steps
    ∧ <[i := JObj u]> steps !! i = Some (JObj u)
    ∧ ∀ j, j ≠ i → <[i := JObj u]> steps !! j = steps !! j.
Proof.
  rewrite put_steps_run. intros Hrun Hst.
  destruct (load (file w)) as [steps|]; [|discriminate].
  destruct (findIndex _ steps) as [[i|]|] eqn:Hfind; [| |discriminate].
  2: { injection Hrun as <- <-. discriminate. }
  cbn zeta in Hrun. destruct (required_missing _).
  { injection Hrun as <- <-. discriminate. }
  destruct (renormalize _) as [u|] eqn:Hu; [|discriminate].
  injection Hrun as <- <-.
  apply findIndex_Some in Hfind as (x & Hx & Hid & _).
  apply has_id_true in Hid as (old & -> & Hold).
  apply renormalize_fields in Hu as (c & v & _ & _ & _ & _ & Hk).
  exists steps, i, old, u. repeat split; try done.
  - rewrite Hk by done. apply merged_id.
  - apply length_insert.
  - apply list_lookup_insert_eq. by eapply lookup_lt_Some.
  - intros j Hj. by apply list_lookup_insert_ne.
Qed.

(** C5, as the code has it: when the identifier of the path is found,
    the merged record passes the check of the required fields and the
    renormalisation of [commands] and [vars] raises nothing, the answer
    is 200 with the record that is saved in place.  Every field of it
    other than [id], [updatedAt], [commands] and [vars] is the field of
    the patch when the patch has it and the field of the existing
    record otherwise; [id] is the identifier of the path, [updatedAt] is
    the time of the request, and [commands] and [vars] are the merged
    values after [normalizeCommands] and [normalizeVars]. *)
Theorem put_steps_merges (id : string) (body : option json) (e : env)
    (w : world) (steps : list json) (i : nat) (old : gmap string json)
    (c : option json) (v : option (list vardef)) :
  load (file w) = Normal steps →
  findIndex (has_id id) steps = Normal (Some i) →
  steps !! i = Some (JObj old) →
  required_missing (JObj (merged (Some (JObj old)) (or_empty body) id e)) = false →
  normalizeCommands (shallow (or_empty body) old "commands") = Normal c →
  normalizeVars (shallow (or_empty body) old "vars") = Normal v →
  ∃ u,
    put_steps id body e w
    = (Normal (Response 200 (Some (JObj u))),
       saved (<[i := JObj u]> steps) (ensured w))
    ∧ u !! "id" = Some (JStr id)
    ∧ u !! "updatedAt" = Some (JStr (now_iso e))
    ∧ u !! "commands" = c
    ∧ u !! "vars" = vars_json <$> v
    ∧ ∀ k, k ∉ managed_fields → u !! k = shallow (or_empty body) old k.
Proof.
  intros Hload Hfind Hold Hreq Hc Hv.
  rewrite put_steps_run, Hload, Hfind, Hold. cbn zeta. rewrite Hreq.
  rewrite <- (merged_shallow old _ id e) in Hc, Hv by done.
  destruct (renormalize _) as [u|x] eqn:Hu.
  - apply renormalize_fields in Hu as (c' & v' & Hc' & Hv' & Huc & Huv & Hk).
    rewrite Hc in Hc'. rewrite Hv in Hv'.
    injection Hc' as <-. injection Hv' as <-.
    exists u. repeat split; try done.
    + rewrite Hk by done. apply merged_id.
    + rewrite Hk by done. apply merged_updatedAt.
    + intros k Hin. unfold managed_fields in Hin.
      rewrite !not_elem_of_cons in Hin. destruct Hin as (? & ? & ? & ? & _).
      rewrite Hk by done. by apply merged_shallow.
  - rewrite renormalize_run, Hc, Hv in Hu. discriminate.
Qed.

(** ** Create *)

Lemma new_step_fields (e : env) (b : json) (t c i n : string)
    (cmds : option json) (vs : option (list vardef)) :
  String_ (prop b "title") = Normal t →
  String_ (prop b "category") = Normal c →
  String_ (prop b "icon") = Normal i →
  String_ (prop b "content") = Normal n →
  normalizeCommands (prop b "commands") = Normal cmds →
  normalizeVars (prop b "vars") = Normal vs →
  ∃ step, new_step e b = Normal (JObj step)
    ∧ step !! "id" = Some (JStr (newId e))
    ∧ step !! "createdAt" = Some (JStr (now_iso e))
    ∧ step !! "title" = Some (JStr t)
    ∧ step !! "category" = Some (JStr c)
    ∧ step !! "icon" = Some (JStr i)
    ∧ step !! "content" = Some (JStr n)
    ∧ step !! "commands" = cmds
    ∧ step !! "vars" = vars_json <$> vs.
Proof.
  intros Ht Hc Hi Hn Hcmds Hvs. unfold new_step.
  rewrite Ht, Hc, Hi, Hn, Hcmds, Hvs. cbn -[set_opt].
  eexists. split; [reflexivity|].
  repeat split; lookup_field.
Qed.

(** C4, as the code has it: when the data file loads and the
    stringification of the fields raises nothing, a create request whose
    four required fields are truthy is answered 201 with the new Step,
    which carries the generated [id] and [createdAt] and the stringified
    fields; the Step is put in front of the sequence, which is saved,
    and a list request that follows returns that sequence, the new Step
    first. *)
Theorem post_steps_prepends (body : option json) (e : env) (w : world)
    (steps : list json) (t c i n : string)
    (cmds : option json) (vs : option (list vardef)) :
  load (file w) = Normal steps →
  required_missing (or_empty body) = false →
  String_ (prop (or_empty body) "title") = Normal t →
  String_ (prop (or_empty body) "category") = Normal c →
  String_ (prop (or_empty body) "icon") = Normal i →
  String_ (prop (or_empty body) "content") = Normal n →
  normalizeCommands (prop (or_empty body) "commands") = Normal cmds →
  normalizeVars (prop (or_empty body) "vars") = Normal vs →
  ∃ step w',
    post_steps body e w = (Normal (Response 201 (Some (JObj step))), w')
    ∧ step !! "id" = Some (JStr (newId e))
    ∧ step !! "createdAt" = Some (JStr (now_iso e))
    ∧ step !! "title" = Some (JStr t)
    ∧ step !! "category" = Some (JStr c)
    ∧ step !! "icon" = Some (JStr i)
    ∧ step !! "content" = Some (JStr n)
    ∧ step !! "commands" = cmds
    ∧ step !! "vars" = vars_json <$> vs
    ∧ load (file w') = Normal (JObj step :: steps)
    ∧ saves w' = (JObj step :: steps) :: saves w
    ∧ get_steps w'
      = (Normal (Response 200 (Some (JArr (JObj step :: steps)))), w').
Proof.
  intros Hload Hreq Ht Hc Hi Hn Hcmds Hvs.
  destruct (new_step_fields e _ _ _ _ _ _ _ Ht Hc Hi Hn Hcmds Hvs)
    as (step & Hstep & Hfields).
  exists step, (saved (JObj step :: steps) (ensured w)).
  rewrite post_steps_run, Hreq, Hload, Hstep.
  split; [done|]. do 7 (destruct Hfields as [? Hfields]; split; [done|]).
  by repeat split.
Qed.

(** ** Delete *)

Lemma filter_matching_nonempty (id : string) (l : list json) :
  Exists (λ s, matching id s) l →
  0 < length (filter (λ s, matching id s) l).
Proof.
  induction 1 as [s l Hs|s l _ IH]; rewrite filter_cons.
  - rewrite decide_True by done. cbn. lia.
  - case_decide; cbn; lia.
Qed.

Lemma filter_lacking (id : string) (l : list json) :
  Forall (λ s, matching id s = false) (filter (λ s, ¬ matching id s) l).
Proof.
  induction l as [|s l IH]; [constructor|].
  rewrite filter_cons. case_decide as Hd; [|done].
  constructor; [|done]. by destruct (matching id s).
Qed.

Lemma filter_not_null (id : string) (l : list json) :
  Forall (λ s, s ≠ JNull) l →
  Forall (λ s, s ≠ JNull) (filter (λ s, ¬ matching id s) l).
Proof.
  induction 1 as [|s l Hs _ IH]; [constructor|].
  rewrite filter_cons. case_decide; [by constructor|done].
Qed.

(** C7, as the code has it: when the collection holds a record with the
    identifier, the delete handler answers 204 and saves the sequence
    without the records that carry it, all of them, the others in their
    order; exactly one record goes when the identifier occurs once.  A
    second delete of the identifier answers 404 and leaves that
    sequence. *)
Theorem delete_steps_removes_matching (id : string) (w : world)
    (steps : list json) :
  load (file w) = Normal steps →
  Forall (λ s, s ≠ JNull) steps →
  Exists (λ s, matching id s) steps →
  ∃ w' w'',
    delete_steps id w = (Normal (Response 204 None), w')
    ∧ load (file w') = Normal (filter (λ s, ¬ matching id s) steps)
    ∧ length (filter (λ s, ¬ matching id s) steps)
      + length (filter (λ s, matching id s) steps) = length steps
    ∧ (length (filter (λ s, matching id s) steps) = 1 →
       length steps = S (length (filter (λ s, ¬ matching id s) steps)))
    ∧ delete_steps id w'
      = (Normal (Response 404 (Some (message "not found"))), w'')
    ∧ load (file w'') = Normal (filter (λ s, ¬ matching id s) steps).
Proof.
  intros Hload Hnn Hex.
  pose proof (length_filter_split id steps) as Hlen.
  pose proof (filter_matching_nonempty id steps Hex) as Hpos.
  set (next := filter (λ s, ¬ matching id s) steps) in *.
  exists (saved next (ensured w)), (saved next (ensured w)).
  split.
  { rewrite delete_steps_run, Hload, filter_by_lacks by done. fold next.
    rewrite decide_False by lia. done. }
  split; [done|]. split; [done|]. split; [lia|].
  split; [|done].
  rewrite (delete_steps_unknown id _ next); [done..|].
  apply Forall_and. split; [by apply filter_not_null|apply filter_lacking].
Qed.

(** ** Where [String] raises nothing *)

Lemma ToString_array (l : list json) : ToString (JArr l) = join l.
Proof.
  induction l as [|x l IH]; [reflexivity|].
  cbn [join]. rewrite <- IH. reflexivity.
Qed.

(** Induction on a value with the elements of an array at hand. *)
Lemma json_nested_ind (P : json → Prop) :
  P JNull → (∀ b, P (JBool b)) → (∀ n, P (JNum n)) → (∀ s, P (JStr s)) →
  (∀ l, Forall P l → P (JArr l)) → (∀ m, P (JObj m)) →
  ∀ v, P v.
Proof.
  intros Hnull Hbool Hnum Hstr Harr Hobj.
  fix IH 1.
  intros [| b | n | s | l | m];
    [exact Hnull|apply Hbool|apply Hnum|apply Hstr| |apply Hobj].
  apply Harr. induction l as [|x l IHl]; constructor; [apply IH|exact IHl].
Qed.

Lemma returns_Normal {A} (a : A) : returns (Normal a).
Proof. by exists a. Qed.

Lemma returns_Throw {A} (e : exn) : ¬ returns (@Throw A e).
Proof. by intros [a ?]. Qed.

Lemma element_string_printable (x : json) :
  (printable x = true ↔ returns (ToString x)) →
  (printable x = true ↔ returns (element_string x)).
Proof.
  destruct x; try done. intros _. split; [|done].
  intros _. apply returns_Normal.
Qed.

Lemma ToString_printable (v : json) :
  printable v = true ↔ returns (ToString v).
Proof.
  induction v as [| b | n | s | l IHl | m] using json_nested_ind;
    try (split; [intros _; apply returns_Normal|done]).
  - rewrite ToString_array. cbn [printable].
    induction IHl as [|x l Hx _ IH];
      [split; [intros _; apply returns_Normal|done]|].
    apply element_string_printable in Hx.
    cbn [forallb join]. rewrite andb_true_iff, Hx, IH. clear Hx IH.
    destruct (element_string x) as [s|]; cbn.
    2: { split; [intros [[]%returns_Throw _]|intros []%returns_Throw]. }
    destruct l as [|y l].
    { split; [intros _; apply returns_Normal|].
      intros _. split; apply returns_Normal. }
    destruct (join (y :: l)) as [t|]; cbn.
    + split; [intros _; apply returns_Normal|].
      intros _. split; apply returns_Normal.
    + split; [intros [_ []%returns_Throw]|intros []%returns_Throw].
  - cbn. destruct (m !! "toString").
    + split; [done|intros []%returns_Throw].
    + split; [intros _; apply returns_Normal|done].
Qed.

Lemma String_printable (o : option json) :
  field_printable o = true → returns (String_ o).
Proof.
  destruct o as [v|]; [apply ToString_printable|].
  intros _. apply returns_Normal.
Qed.

Lemma cleanVar_returns (v : json) :
  entry_printable v = true → returns (cleanVar v).
Proof.
  unfold entry_printable, cleanVar.
  intros [[Hk Hl]%andb_prop Hp]%andb_prop.
  destruct (String_printable _ Hk) as [k Ek].
  destruct (String_printable _ Hl) as [l El].
  destruct (String_printable _ Hp) as [p Ep].
  rewrite Ek, El, Ep.
  destruct (not_nullish _), (not_nullish _), (not_nullish _);
    apply returns_Normal.
Qed.

Lemma mapM_cleanVar_returns (l : list json) :
  Forall (λ v, entry_printable v = true) l → returns (mapM cleanVar l).
Proof.
  induction 1 as [|v l Hv _ IH]; [apply returns_Normal|].
  cbn [mapM]. destruct (cleanVar_returns v Hv) as [d ->].
  destruct IH as [ds ->]. apply returns_Normal.
Qed.

(** [normalizeVars] raises nothing on the inputs whose entries print:
    every input that is not an array, and every array in which no key,
    label or placeholder is, or holds in an array, an object with a
    property [toString] of its own. *)
Lemma normalizeVars_returns (vars : option json) :
  (∀ l, vars = Some (JArr l) → Forall (λ v, entry_printable v = true) l) →
  returns (normalizeVars vars).
Proof.
  intros H. destruct vars as [[| | | |l|]|]; try apply returns_Normal.
  specialize (H l eq_refl). unfold normalizeVars.
  destruct (decide _); [apply returns_Normal|].
  destruct (mapM_cleanVar_returns l H) as [ds ->]. apply returns_Normal.
Qed.

(** ** [normalizeVars] and the normalisation of the specification *)

Lemma strip_white_space_snoc (l : list ascii) (c : ascii) :
  strip_white_space (l ++ [c])
  = match strip_white_space l with
    | [] => if is_white_space c then [] else [c]
    | x => x ++ [c]
    end.
Proof.
  induction l as [|a l IH]; [reflexivity|].
  cbn [app strip_white_space]. by destruct (is_white_space a).
Qed.

Lemma trimStart_strip (s : string) :
  list_ascii_of_string (trimStart s)
  = strip_white_space (list_ascii_of_string s).
Proof.
  induction s as [|c r IH]; [reflexivity|].
  cbn [trimStart list_ascii_of_string strip_white_space].
  by destruct (is_white_space c).
Qed.

Lemma trimEnd_strip (s : string) :
  list_ascii_of_string (trimEnd s)
  = reverse (strip_white_space (reverse (list_ascii_of_string s))).
Proof.
  induction s as [|c r IH]; [reflexivity|].
  cbn [trimEnd list_ascii_of_string].
  rewrite reverse_cons, strip_white_space_snoc.
  destruct (trimEnd r) as [|a r'] eqn:Hr.
  - apply (f_equal reverse) in IH. rewrite reverse_involutive in IH.
    rewrite <- IH. by destruct (is_white_space c).
  - apply (f_equal reverse) in IH. rewrite reverse_involutive in IH.
    rewrite <- IH. cbn [list_ascii_of_string].
    rewrite reverse_cons.
    destruct (reverse (list_ascii_of_string r') ++ [a]) as [|y k] eqn:Hk.
    { by destruct (reverse (list_ascii_of_string r')). }
    rewrite <- Hk, reverse_app, reverse_app, reverse_involutive. reflexivity.
Qed.

(** [String.prototype.trim] removes the white space at both ends. *)
Lemma trim_whitespace_trimmed (s : string) : trim s = whitespace_trimmed s.
Proof.
  unfold trim, whitespace_trimmed.
  rewrite <- trimStart_strip, <- trimEnd_strip.
  by rewrite string_of_list_ascii_of_string.
Qed.

(** Where [String] returns, it returns the stringified value. *)
Lemma ToString_stringified (v : json) (s : string) :
  ToString v = Normal s → stringified v = s.
Proof.
  revert s.
  induction v as [| b | n | t | l IHl | m] using json_nested_ind; intros s.
  - by intros [= <-].
  - destruct b; by intros [= <-].
  - by intros [= <-].
  - by intros [= <-].
  - rewrite ToString_array. revert s.
    induction IHl as [|x l Hx _ IH]; intros s; [by intros [= <-]|].
    cbn [join].
    assert (∀ t, element_string x = Normal t →
                 match x with JNull => "" | _ => stringified x end = t) as Hel.
    { intros t. destruct x; try apply Hx. by intros [= <-]. }
    destruct (element_string x) as [t|]; [|discriminate].
    specialize (Hel t eq_refl). cbn.
    destruct l as [|y l].
    + intros [= <-]. cbn [stringified]. exact Hel.
    + destruct (join (y :: l)) as [u|]; [|discriminate]. cbn.
      intros [= <-]. specialize (IH u eq_refl).
      cbn [stringified] in IH |- *. by rewrite Hel, IH.
  - cbn. destruct (m !! "toString"); [discriminate|]. by intros [= <-].
Qed.

Lemma coerce_text_spec (o : option json) :
  stringifies o = true → coerce_text o = Normal (spec_text o).
Proof.
  destruct o as [v|]; [|reflexivity].
  unfold stringifies, String_.
  destruct (ToString v) as [s|] eqn:Hs; [|discriminate]. intros _.
  apply ToString_stringified in Hs as Hv.
  destruct v; try reflexivity; unfold coerce_text, spec_text;
    rewrite Hs, Hv; cbn; by rewrite trim_whitespace_trimmed.
Qed.

Lemma coerce_placeholder_spec (o : option json) :
  stringifies o = true → coerce_placeholder o = Normal (spec_placeholder o).
Proof.
  destruct o as [v|]; [|reflexivity].
  unfold stringifies, String_.
  destruct (ToString v) as [s|] eqn:Hs; [|discriminate]. intros _.
  apply ToString_stringified in Hs as Hv.
  destruct v; try reflexivity; unfold coerce_placeholder, spec_placeholder;
    by rewrite Hs, Hv.
Qed.

Lemma cleanVar_coerced (v : json) :
  entry_stringifies v = true → cleanVar v = Normal (coerced v).
Proof.
  intros [[Hk Hl]%andb_prop Hp]%andb_prop.
  rewrite cleanVar_coerce. unfold coerce_element.
  by rewrite !coerce_text_spec, coerce_placeholder_spec.
Qed.

Lemma mapM_cleanVar_coerced (l : list json) :
  forallb entry_stringifies l = true → mapM cleanVar l = Normal (coerced <$> l).
Proof.
  induction l as [|v l IH]; [reflexivity|].
  cbn [forallb]. intros [Hv Hl]%andb_prop.
  cbn [mapM]. by rewrite cleanVar_coerced, IH.
Qed.

Lemma kept_not_discarded (d : vardef) : kept d ↔ discarded d = false.
Proof. by destruct d as [[|] [|] p]. Qed.

(** C3, as the code has it: on every input on which [String] raises no
    error for a key, a label or a placeholder, [normalizeVars] returns
    what the specification describes: absent unless the input is a
    non-empty sequence; otherwise each element's key and label stringified and
    trimmed (the empty string when null or absent), its placeholder
    stringified when present, the elements whose key or label is empty
    discarded in order, and absent when none is left.  Whatever the
    input, the result is absent when the input is not a non-empty
    sequence.  [[{key:"p",label:"Path"},{key:"",label:"x"}]] gives
    [[{key:"p",label:"Path"}]], also as it is serialised. *)
Theorem normalizeVars_refines_spec :
  (∀ vars, vars_stringify vars = true →
           normalizeVars vars = Normal (normalizeVars_spec vars))
  ∧ (∀ vars, match vars with
             | Some (JArr (_ :: _)) => True
             | _ => normalizeVars vars = Normal None
             end)
  ∧ normalizeVars (Some sample_vars)
    = Normal (Some [{| key := "p"; label := "Path"; placeholder := None |}])
  ∧ vars_json [{| key := "p"; label := "Path"; placeholder := None |}]
    = JArr [object [("key", JStr "p"); ("label", JStr "Path")]]
  ∧ normalizeVars (Some spaced_vars)
    = Normal (Some [{| key := "p"; label := "Path to file";
                       placeholder := Some " /tmp " |};
                    {| key := "a,,b"; label := "true"; placeholder := None |};
                    {| key := "[object Object]"; label := "[object Object]";
                       placeholder := None |}]).
Proof.
  split; [|split; [|split; [reflexivity|split; vm_compute; reflexivity]]].
  - intros [[| | | |l|]|]; try reflexivity.
    destruct l as [|v l]; [reflexivity|].
    cbn [vars_stringify]. intros Hl.
    unfold normalizeVars, normalizeVars_spec.
    destruct (decide (length (v :: l) = 0)) as [?|_]; [done|].
    rewrite mapM_cleanVar_coerced by done. cbn -[filter].
    rewrite (list_filter_iff _ (λ d, discarded d = false))
      by apply kept_not_discarded.
    by destruct (filter _ _).
  - intros [[| | | |[|v l]|]|]; done.
Qed.

(** ** The worlds the requests lead to *)

Lemma new_step_record (e : env) (b s : json) :
  new_step e b = Normal s → is_record s.
Proof.
  unfold new_step.
  repeat (match goal with
          | |- context [mbind _ ?c] => destruct c; cbn -[set_opt]
          end; try discriminate).
  intros [= <-]. by eexists.
Qed.

Lemma filter_by_Forall (P : json → Prop) (p : json → completion bool)
    (l l' : list json) :
  Forall P l → filter_by p l = Normal l' → Forall P l'.
Proof.
  intros H. revert l'. induction H as [|x l Hx _ IH]; intros l'.
  - intros [= <-]. constructor.
  - cbn [filter_by]. destruct (p x) as [b|]; [|discriminate]. cbn.
    destruct (filter_by p l) as [r|]; [|discriminate]. cbn.
    intros [= <-]. destruct b; [constructor|]; auto.
Qed.

(** From the initial world on the data file is absent or holds a
    sequence of records, whatever the requests were. *)
Lemma reachable_records (w : world) :
  reachable w → ∃ steps, load (file w) = Normal steps ∧ Forall is_record steps.
Proof.
  induction 1 as [|w rq e _ (steps & Hload & Hrec)].
  { exists []. by split. }
  assert (∃ l, load (file (ensured w)) = Normal l ∧ Forall is_record l) as Hens
    by (rewrite load_ensured; eauto).
  assert (∀ l, Forall is_record l →
               ∃ l', load (file (saved l (ensured w))) = Normal l'
                     ∧ Forall is_record l') as Hsaved by eauto.
  destruct rq as [| |body|id body|id]; cbn [handle].
  - eauto.
  - rewrite get_steps_run, Hload. exact Hens.
  - rewrite post_steps_run, Hload.
    destruct (required_missing _); [eauto|].
    destruct (new_step _ _) as [step|] eqn:Hstep; [|exact Hens].
    apply Hsaved. constructor; [by eapply new_step_record|done].
  - rewrite put_steps_run, Hload.
    destruct (findIndex _ steps) as [[i|]|]; try exact Hens.
    cbn zeta. destruct (required_missing _); [exact Hens|].
    destruct (renormalize _) as [u|]; [|exact Hens].
    apply Hsaved, Forall_insert; [done|by eexists].
  - rewrite delete_steps_run, Hload.
    destruct (filter_by _ steps) as [next|] eqn:Hnext; [|exact Hens].
    destruct (decide _); [exact Hens|].
    by eapply Hsaved, filter_by_Forall.
Qed.

Lemma record_not_null (steps : list json) :
  Forall is_record steps → Forall (λ s, s ≠ JNull) steps.
Proof. intros H. eapply Forall_impl; [exact H|]. by intros s [m ->]. Qed.

End Properties.

(** ** Identifiers *)

Lemma digit_not_dash (c : ascii) : is_digit c = true → c ≠ "-"%char.
Proof. intros H ->. discriminate. Qed.

Lemma append_dash_inj (a b x y : string) :
  all_digits a = true → all_digits b = true →
  a +:+ "-" +:+ x = b +:+ "-" +:+ y → a = b ∧ x = y.
Proof.
  revert b. induction a as [|ca a IH]; intros [|cb b] Ha Hb E; cbn in *.
  - by injection E.
  - injection E as E _. apply andb_prop in Hb as [Hb _].
    by destruct (digit_not_dash cb).
  - injection E as E _. apply andb_prop in Ha as [Ha _].
    by destruct (digit_not_dash ca).
  - injection E as -> E.
    apply andb_prop in Ha as [_ Ha]. apply andb_prop in Hb as [_ Hb].
    destruct (IH b Ha Hb E) as [-> ->]. done.
Qed.

(** C8, as the code has it: an identifier is the clock reading and the
    random suffix joined by a dash and nothing else; two create
    operations receive the same identifier exactly when both their
    clock readings and their random suffixes coincide.  Within one
    millisecond the identifiers differ if and only if the random
    suffixes differ. *)
Theorem newId_equal_iff (e1 e2 : env) :
  all_digits (now_ms e1) = true →
  all_digits (now_ms e2) = true →
  newId e1 = newId e2
  ↔ now_ms e1 = now_ms e2
    ∧ slice 2 (random_hex e1) = slice 2 (random_hex e2).
Proof.
  intros H1 H2. unfold newId. split.
  - by apply append_dash_inj.
  - by intros [-> ->].
Qed.

(** ** The claims on sample requests *)

Lemma stored_field_breaks (k : string) (w : world) (steps : list json)
    (v : option json) (l : list (option json)) :
  k ∈ required_fields →
  load (file w) = Normal steps →
  stored_field k w = Normal (v :: l) →
  (∀ t, v = Some (JStr t) → t = "") →
  ¬ Forall required_strings steps.
Proof.
  intros Hk Hload Hfield Hv Hall. unfold stored_field in Hfield.
  rewrite Hload in Hfield. cbn in Hfield.
  destruct steps as [|s steps]; [discriminate|].
  injection Hfield as <- _.
  apply Forall_cons_1 in Hall as [Hs _].
  destruct (Hs k Hk) as (t & Ht & Hne). by apply Hne, Hv.
Qed.

Lemma once_created_reachable : reachable once_created.
Proof. apply (reachable_request initial (PostSteps _)), reachable_initial. Qed.

Lemma twice_created_reachable : reachable twice_created.
Proof.
  apply (reachable_request once_created (PostSteps _)), once_created_reachable.
Qed.

(** C1 fails on the code.  On the initial world a create request whose
    [title] is the empty array is answered 201 and is stored with the
    empty string as its title; an update whose patch sets [title] to
    [true] is answered 200 and stores the boolean.  In both collections
    a Step breaks the invariant. *)
Theorem required_strings_not_kept :
  let created := post_steps (Some empty_title_body) sample_env initial in
  let updated :=
    put_steps (newId sample_env) (Some boolean_title_patch) later_env
      once_created in
  (reachable created.2
   ∧ answered created = Normal 201
   ∧ stored_field "title" created.2 = Normal [Some (JStr "")]
   ∧ ∀ steps, load (file created.2) = Normal steps →
              ¬ Forall required_strings steps)
  ∧ (reachable updated.2
     ∧ answered updated = Normal 200
     ∧ stored_field "title" updated.2 = Normal [Some (JBool true)]
     ∧ ∀ steps, load (file updated.2) = Normal steps →
                ¬ Forall required_strings steps).
Proof.
  assert ("title" ∈ required_fields) as Hk
    by (unfold required_fields; set_solver).
  cbv zeta. split.
  - assert (stored_field "title"
              (post_steps (Some empty_title_body) sample_env initial).2
            = Normal [Some (JStr "")]) as Hf by (vm_compute; reflexivity).
    split; [apply (reachable_request initial (PostSteps _)), reachable_initial|].
    split; [vm_compute; reflexivity|]. split; [exact Hf|].
    intros steps Hload.
    apply (stored_field_breaks _ _ _ _ _ Hk Hload Hf).
    by intros t [= <-].
  - assert (stored_field "title"
              (put_steps (newId sample_env) (Some boolean_title_patch)
                 later_env once_created).2
            = Normal [Some (JBool true)]) as Hf by (vm_compute; reflexivity).
    split; [apply (reachable_request once_created (PutSteps _ _)),
              once_created_reachable|].
    split; [vm_compute; reflexivity|]. split; [exact Hf|].
    intros steps Hload.
    apply (stored_field_breaks _ _ _ _ _ Hk Hload Hf).
    by intros t [=].
Qed.

(** C2 fails as stated: content that is not JSON is not a well-formed
    sequence, and loading it raises instead of returning the empty
    sequence. *)
Lemma readSteps_unparsable_raises :
  ¬ well_formed_sequence Unparsable
  ∧ readSteps corrupted = (Throw SyntaxError, corrupted)
  ∧ (readSteps corrupted).1 ≠ Normal [].
Proof.
  split; [intros (l & Hl & _); discriminate|].
  split; [reflexivity|discriminate].
Qed.

(** C3 fails as stated: the only element has an empty key, so that the
    specification discards it and gives absent; [normalizeVars] prints
    the placeholder of every element before it discards any, and
    [String] raises on this one. *)
Lemma normalizeVars_raises_on_discarded :
  normalizeVars_spec (Some discarded_shadowing_vars) = None
  ∧ vars_stringify (Some discarded_shadowing_vars) = false
  ∧ normalizeVars (Some discarded_shadowing_vars) = Throw TypeError.
Proof. repeat split; vm_compute; reflexivity. Qed.

(** C4 fails as stated: on a data file that is not JSON a create request
    with the four required fields raises and answers nothing.  So does,
    on the initial world, a create request whose truthy title cannot be
    stringified. *)
Lemma post_steps_raises :
  (required_missing (or_empty (Some sample_body)) = false
   ∧ post_steps (Some sample_body) sample_env corrupted
     = (Throw SyntaxError, corrupted))
  ∧ (required_missing (or_empty (Some shadowing_body)) = false
     ∧ (post_steps (Some shadowing_body) sample_env initial).1
       = Throw TypeError).
Proof. repeat split; vm_compute; reflexivity. Qed.

(** C5 fails as stated: the patch has the field [commands], the empty
    array; the update is answered 200 and the saved record has no field
    [commands] at all. *)
Lemma put_steps_drops_empty_commands :
  let run :=
    put_steps (newId sample_env) (Some empty_commands_patch) later_env
      once_created in
  stored_field "commands" once_created
  = Normal [Some (JArr [JStr "cp {{p}} /tmp"])]
  ∧ own_props empty_commands_patch !! "commands" = Some (JArr [])
  ∧ answered run = Normal 200
  ∧ answered_field "commands" run = Normal None
  ∧ stored_field "commands" run.2 = Normal [None].
Proof. cbv zeta. repeat split; vm_compute; reflexivity. Qed.

(** C7 fails as stated: two create requests that read the same clock and
    draw the same random number leave two records with one identifier,
    and a delete of that identifier removes both. *)
Lemma delete_steps_removes_both :
  let run := delete_steps (newId sample_env) twice_created in
  reachable twice_created
  ∧ stored_field "id" twice_created
  = Normal [Some (JStr (newId sample_env)); Some (JStr (newId sample_env))]
  ∧ answered run = Normal 204
  ∧ load (file run.2) = Normal [].
Proof.
  cbv zeta. split; [exact twice_created_reachable|].
  repeat split; vm_compute; reflexivity.
Qed.

(** C8 fails as stated: two create requests that read the same clock and
    draw the same random number are both answered 201 and their Steps,
    both in the collection, carry the same identifier. *)
Lemma post_steps_repeats_id :
  answered (post_steps (Some sample_body) sample_env initial) = Normal 201
  ∧ answered (post_steps (Some other_body) sample_env once_created)
    = Normal 201
  ∧ stored_field "title" twice_created
    = Normal [Some (JStr "Move"); Some (JStr "Copy")]
  ∧ stored_field "id" twice_created
    = Normal [Some (JStr (newId sample_env)); Some (JStr (newId sample_env))].
Proof. repeat split; vm_compute; reflexivity. Qed.

(** C9 fails on the code: an entry whose key is an object with a
    property [toString] of its own makes [normalizeVars] raise a
    [TypeError]. *)
Theorem normalizeVars_raises :
  normalizeVars (Some shadowing_vars) = Throw TypeError.
Proof. vm_compute. reflexivity. Qed.

(** ** The theorems at sample requests *)

(** Five entries with white space, a sequence, a boolean, records and
    [null]s: three are kept. *)
Lemma normalizeVars_refines_spec_witness :
  vars_stringify (Some spaced_vars) = true
  ∧ normalizeVars (Some spaced_vars)
    = Normal (normalizeVars_spec (Some spaced_vars)).
Proof.
  split; [reflexivity|].
  apply (proj1 normalizeVars_refines_spec). reflexivity.
Defined.

(** A create request on a data file with two records. *)
Lemma post_steps_prepends_witness :
  (load (file stocked) = Normal two_steps
   ∧ required_missing (or_empty (Some sample_body)) = false
   ∧ String_ (prop (or_empty (Some sample_body)) "title") = Normal "Copy"
   ∧ normalizeCommands (prop (or_empty (Some sample_body)) "commands")
     = Normal (Some (JArr [JStr "cp {{p}} /tmp"]))
   ∧ normalizeVars (prop (or_empty (Some sample_body)) "vars")
     = Normal (Some [{| key := "p"; label := "Path"; placeholder := None |}]))
  ∧ ∃ step w',
      post_steps (Some sample_body) sample_env stocked
      = (Normal (Response 201 (Some (JObj step))), w')
      ∧ step !! "id" = Some (JStr (newId sample_env))
      ∧ step !! "createdAt" = Some (JStr (now_iso sample_env))
      ∧ step !! "title" = Some (JStr "Copy")
      ∧ step !! "category" = Some (JStr "files")
      ∧ step !! "icon" = Some (JStr "copy")
      ∧ step !! "content" = Some (JStr "Copy the file")
      ∧ step !! "commands" = Some (JArr [JStr "cp {{p}} /tmp"])
      ∧ step !! "vars"
        = vars_json
          <$> Some [{| key := "p"; label := "Path"; placeholder := None |}]
      ∧ load (file w') = Normal (JObj step :: two_steps)
      ∧ saves w' = (JObj step :: two_steps) :: saves stocked
      ∧ get_steps w'
        = (Normal (Response 200 (Some (JArr (JObj step :: two_steps)))), w').
Proof.
  split.
  - split; [reflexivity|]. repeat split; vm_compute; reflexivity.
  - apply (post_steps_prepends (Some sample_body) sample_env stocked two_steps
             "Copy" "files" "copy" "Copy the file"
             (Some (JArr [JStr "cp {{p}} /tmp"]))
             (Some [{| key := "p"; label := "Path"; placeholder := None |}]));
      [reflexivity|vm_compute; reflexivity..].
Defined.

(** An update of the second record that also tries to change its
    identifier. *)
Lemma put_steps_merges_witness :
  (load (file stocked) = Normal two_steps
   ∧ findIndex (has_id "1700000000000-8f3a1c") two_steps = Normal (Some 1)
   ∧ two_steps !! 1 = Some (JObj stored_fields)
   ∧ required_missing (JObj merged_sample) = false)
  ∧ ∃ u,
      put_steps "1700000000000-8f3a1c" (Some title_patch) later_env stocked
      = (Normal (Response 200 (Some (JObj u))),
         saved (<[1 := JObj u]> two_steps) (ensured stocked))
      ∧ u !! "id" = Some (JStr "1700000000000-8f3a1c")
      ∧ u !! "updatedAt" = Some (JStr (now_iso later_env))
      ∧ u !! "commands" = Some (JArr [JStr "cp {{p}} /tmp"])
      ∧ u !! "vars" = vars_json <$> None
      ∧ ∀ k, k ∉ managed_fields →
             u !! k = shallow (or_empty (Some title_patch)) stored_fields k.
Proof.
  assert (findIndex (has_id "1700000000000-8f3a1c") two_steps
          = Normal (Some 1)) as Hfind by (vm_compute; reflexivity).
  assert (required_missing (JObj merged_sample) = false) as Hreq
    by (vm_compute; reflexivity).
  split; [by repeat split|].
  apply (put_steps_merges "1700000000000-8f3a1c" (Some title_patch)
           later_env stocked two_steps 1 stored_fields
           (Some (JArr [JStr "cp {{p}} /tmp"])) None);
    [reflexivity|exact Hfind|reflexivity|exact Hreq|vm_compute; reflexivity..].
Defined.

(** An update of an identifier the collection does not hold. *)
Lemma failure_saves_nothing_witness :
  (handle (PutSteps "1600000000000-000000" (Some title_patch)) later_env stocked
   = (Normal (Response 404 (Some (message "not found"))), ensured stocked)
   ∧ status (Response 404 (Some (message "not found"))) = 404)
  ∧ saves (ensured stocked) = saves stocked
  ∧ load (file (ensured stocked)) = load (file stocked)
  ∧ (ensured stocked = stocked ∨ ensured stocked = ensured stocked).
Proof.
  assert (handle (PutSteps "1600000000000-000000" (Some title_patch))
            later_env stocked
          = (Normal (Response 404 (Some (message "not found"))),
             ensured stocked)) as Hrun.
  { apply (put_steps_unknown _ _ _ _ two_steps); [reflexivity|].
    repeat constructor; try discriminate; vm_compute; reflexivity. }
  split; [split; [exact Hrun|reflexivity]|].
  apply (failure_saves_nothing _ _ _ _ _ Hrun). by right.
Defined.

(** A delete of the second record. *)
Lemma delete_steps_removes_matching_witness :
  (load (file stocked) = Normal two_steps
   ∧ Forall (λ s, s ≠ JNull) two_steps
   ∧ Exists (λ s, matching "1700000000000-8f3a1c" s) two_steps)
  ∧ ∃ w' w'',
      delete_steps "1700000000000-8f3a1c" stocked
      = (Normal (Response 204 None), w')
      ∧ load (file w')
        = Normal (filter (λ s, ¬ matching "1700000000000-8f3a1c" s) two_steps)
      ∧ length (filter (λ s, ¬ matching "1700000000000-8f3a1c" s) two_steps)
        + length (filter (λ s, matching "1700000000000-8f3a1c" s) two_steps)
        = length two_steps
      ∧ (length (filter (λ s, matching "1700000000000-8f3a1c" s) two_steps) = 1 →
         length two_steps
         = S (length (filter (λ s, ¬ matching "1700000000000-8f3a1c" s)
                        two_steps)))
      ∧ delete_steps "1700000000000-8f3a1c" w'
        = (Normal (Response 404 (Some (message "not found"))), w'')
      ∧ load (file w'')
        = Normal (filter (λ s, ¬ matching "1700000000000-8f3a1c" s) two_steps).
Proof.
  assert (Forall (λ s : json, s ≠ JNull) two_steps) as Hnn
    by (repeat constructor; discriminate).
  assert (Exists (λ s, matching "1700000000000-8f3a1c" s) two_steps) as Hex
    by (apply Exists_cons_tl, Exists_cons_hd; vm_compute; exact I).
  split; [by repeat split|].
  exact (delete_steps_removes_matching "1700000000000-8f3a1c" stocked
           two_steps eq_refl Hnn Hex).
Defined.

(** Two requests within one millisecond with different random draws. *)
Lemma newId_equal_iff_witness :
  (all_digits (now_ms sample_env) = true
   ∧ all_digits (now_ms later_env) = true)
  ∧ (newId sample_env = newId later_env
     ↔ now_ms sample_env = now_ms later_env
       ∧ slice 2 (random_hex sample_env) = slice 2 (random_hex later_env)).
Proof.
  split; [split; reflexivity|].
  apply (newId_equal_iff sample_env later_env); reflexivity.
Defined.

(** The same update: the first record stays as it is. *)
Lemma put_steps_keeps_position_witness :
  (put_steps "1700000000000-8f3a1c" (Some title_patch) later_env stocked
   = (Normal (Response 200 (Some (JObj updated_sample))),
      saved (<[1 := JObj updated_sample]> two_steps) (ensured stocked))
   ∧ status (Response 200 (Some (JObj updated_sample))) = 200)
  ∧ ∃ steps i old u,
      load (file stocked) = Normal steps
      ∧ steps !! i = Some (JObj old)
      ∧ old !! "id" = Some (JStr "1700000000000-8f3a1c")
      ∧ payload (Response 200 (Some (JObj updated_sample))) = Some (JObj u)
      ∧ u !! "id" = Some (JStr "1700000000000-8f3a1c")
      ∧ load (file (saved (<[1 := JObj updated_sample]> two_steps)
                      (ensured stocked)))
        = Normal (<[i := JObj u]> steps)
      ∧ saves (saved (<[1 := JObj updated_sample]> two_steps) (ensured stocked))
        = <[i := JObj u]> steps :: saves stocked
      ∧ length (<[i := JObj u]> steps) = length steps
      ∧ <[i := JObj u]> steps !! i = Some (JObj u)
      ∧ ∀ j, j ≠ i → <[i := JObj u]> steps !! j = steps !! j.
Proof.
  assert (put_steps "1700000000000-8f3a1c" (Some title_patch) later_env stocked
          = (Normal (Response 200 (Some (JObj updated_sample))),
             saved (<[1 := JObj updated_sample]> two_steps) (ensured stocked)))
    as Hrun.
  { apply (put_steps_found _ _ _ _ two_steps 1);
      [reflexivity|vm_compute; reflexivity|vm_compute; reflexivity|].
    rewrite renormalize_run.
    change (merged (two_steps !! 1) (or_empty (Some title_patch))
              "1700000000000-8f3a1c" later_env) with merged_sample.
    assert (normalizeCommands (merged_sample !! "commands")
            = Normal (Some (JArr [JStr "cp {{p}} /tmp"]))) as ->
      by (vm_compute; reflexivity).
    assert (normalizeVars (merged_sample !! "vars") = Normal None) as ->
      by (vm_compute; reflexivity).
    reflexivity. }
  split; [split; [exact Hrun|reflexivity]|].
  exact (put_steps_keeps_position _ _ _ _ _ _ Hrun eq_refl).
Defined.

(** ** More on the storage *)

Section Coverage.
Context `{Num : Numbers}.

Lemma ensureStorage_run (w : world) : ensureStorage w = (Normal (), ensured w).
Proof. by destruct w as [[d|] sv]. Qed.

Lemma ensured_twice (w : world) : ensured (ensured w) = ensured w.
Proof. by destruct w as [[d|] sv]. Qed.

(** X1: [ensureStorage] creates the data file, holding the empty array,
    only when there is none; it leaves a file that exists as it is,
    whatever its content, and saves nothing; running it twice is
    running it once. *)
Theorem ensureStorage_idempotent (w : world) :
  ensureStorage w = (Normal (), ensured w)
  ∧ (_ ← ensureStorage; ensureStorage) w = ensureStorage w
  ∧ saves (ensured w) = saves w
  ∧ match file w with
    | Some d => ensured w = w
    | None => file (ensured w) = Some (Document (JArr []))
    end.
Proof.
  split; [apply ensureStorage_run|].
  split.
  { unfold mbind, io_bind. by rewrite !ensureStorage_run, ensured_twice. }
  by destruct w as [[d|] sv].
Qed.

(** X2: what [writeSteps] wrote is what [readSteps] reads, whatever the
    file held before, also text that is not JSON; of two writes the
    second one stays. *)
Theorem writeSteps_readSteps (first steps : list json) (w : world) :
  (_ ← writeSteps steps; readSteps) w = (Normal steps, saved steps w)
  ∧ (_ ← writeSteps first; _ ← writeSteps steps; readSteps) w
    = (Normal steps, saved steps (saved first w)).
Proof.
  unfold mbind, io_bind. by rewrite !writeSteps_run, !readSteps_run.
Qed.

(** X3: the list handler answers 200 with the collection as
    [readSteps] gives it, or raises as [readSteps] does; it saves
    nothing and leaves the collection, and asking again gives the same
    answer and the same world. *)
Theorem get_steps_repeatable (w : world) :
  let run := get_steps w in
  get_steps run.2 = run
  ∧ saves run.2 = saves w
  ∧ load (file run.2) = load (file w)
  ∧ run.1 = (λ steps, Response 200 (Some (JArr steps))) <$> load (file w).
Proof.
  cbv zeta. rewrite (get_steps_run w).
  destruct (load (file w)) as [steps|x] eqn:Hload; cbn [fst snd];
    rewrite get_steps_run, load_ensured, Hload, ensured_twice;
    repeat split; try done; by rewrite load_ensured.
Qed.

(** X4: while there is no data file the list handler answers 200 with
    the empty array and the update and delete handlers answer 404; each
    of them creates the file, holding the empty array, and saves
    nothing. *)
Theorem no_file_yet (id : string) (body : option json) (e : env) (w : world) :
  file w = None →
  get_steps w = (Normal (Response 200 (Some (JArr []))), ensured w)
  ∧ put_steps id body e w
    = (Normal (Response 404 (Some (message "not found"))), ensured w)
  ∧ delete_steps id w
    = (Normal (Response 404 (Some (message "not found"))), ensured w)
  ∧ file (ensured w) = Some (Document (JArr []))
  ∧ saves (ensured w) = saves w.
Proof.
  intros Hfile.
  rewrite get_steps_run, put_steps_run, delete_steps_run, Hfile.
  unfold ensured. by rewrite Hfile.
Qed.

(** X5: a data file that is not JSON stays as it is.  On it the health
    check answers, a create request without its required fields is
    answered 400, and every other request raises the [SyntaxError] of
    [JSON.parse]; none of them changes the world. *)
Theorem unparsable_file_stays (rq : request) (e : env) (w : world) :
  file w = Some Unparsable →
  (handle rq e w).2 = w
  ∧ match rq with
    | GetHealth =>
        (handle rq e w).1 = Normal (Response 200 (Some (JObj {["ok" := JBool true]})))
    | PostSteps body =>
        (handle rq e w).1
        = if required_missing (or_empty body)
          then Normal (Response 400 (Some (message required_message)))
          else Throw SyntaxError
    | _ => (handle rq e w).1 = Throw SyntaxError
    end.
Proof.
  intros Hfile.
  assert (ensured w = w) as Hens
    by (destruct w as [f sv]; cbn in *; by subst f).
  destruct rq as [| |body|id body|id]; cbn [handle].
  - done.
  - by rewrite get_steps_run, Hfile, Hens.
  - rewrite post_steps_run, Hfile.
    destruct (required_missing _); [done|]. by rewrite Hens.
  - by rewrite put_steps_run, Hfile, Hens.
  - by rewrite delete_steps_run, Hfile, Hens.
Qed.

End Coverage.

(** ** More on the normalisations *)

Lemma trimStart_clean (s : string) : clean_start (trimStart s).
Proof.
  induction s as [|c s IH]; [done|].
  cbn [trimStart]. by destruct (is_white_space c) eqn:Hc.
Qed.

Lemma trimStart_id (s : string) : clean_start s → trimStart s = s.
Proof. destruct s as [|c s]; [done|]. cbn. by intros ->. Qed.

Lemma trimEnd_clean (s : string) : clean_start s → clean_start (trimEnd s).
Proof.
  destruct s as [|c s]; [done|]. cbn. intros Hc.
  destruct (trimEnd s); by rewrite ?Hc.
Qed.

Lemma trimEnd_cons (c : ascii) (r : string) :
  trimEnd (String c r)
  = match trimEnd r with
    | EmptyString =>
        if is_white_space c then EmptyString else String c EmptyString
    | r' => String c r'
    end.
Proof. done. Qed.

Lemma trimEnd_twice (s : string) : trimEnd (trimEnd s) = trimEnd s.
Proof.
  induction s as [|c s IH]; [done|].
  rewrite trimEnd_cons. destruct (trimEnd s) as [|c' t] eqn:Ht.
  - destruct (is_white_space c) eqn:Hc; [done|]. cbn. by rewrite Hc.
  - by rewrite trimEnd_cons, IH.
Qed.

(** [trim] leaves what it returned as it is. *)
Lemma trim_twice (s : string) : trim (trim s) = trim s.
Proof.
  unfold trim.
  rewrite (trimStart_id (trimEnd (trimStart s)))
    by apply trimEnd_clean, trimStart_clean.
  apply trimEnd_twice.
Qed.

Lemma nonempty_true (s : string) : nonempty s = true ↔ s ≠ EmptyString.
Proof. by destruct s. Qed.

Section Normalisations.
Context `{Num : Numbers}.

Lemma coerce_text_trimmed (o : option json) (k : string) :
  coerce_text o = Normal k → trim k = k.
Proof.
  destruct o as [v|]; [|by intros [= <-]].
  assert (∀ c, (s ← c; Normal (trim s)) = Normal k → trim k = k) as Hc.
  { intros [s|]; [|discriminate]. cbn. intros [= <-]. apply trim_twice. }
  destruct v; try apply Hc. by intros [= <-].
Qed.

Lemma cleanVar_trimmed (v : json) (d : vardef) :
  cleanVar v = Normal d →
  trim (key d) = key d ∧ trim (label d) = label d.
Proof.
  rewrite cleanVar_coerce. unfold coerce_element.
  destruct (coerce_text (prop v "key")) as [k|] eqn:Hk; [|discriminate].
  destruct (coerce_text (prop v "label")) as [l|] eqn:Hl; [|discriminate].
  destruct (coerce_placeholder _) as [p|]; [|discriminate].
  cbn. intros [= <-]. cbn.
  split; by eapply coerce_text_trimmed.
Qed.

Lemma mapM_cleanVar_trimmed (l : list json) (ds : list vardef) :
  mapM cleanVar l = Normal ds →
  length ds = length l
  ∧ Forall (λ d, trim (key d) = key d ∧ trim (label d) = label d) ds.
Proof.
  revert ds. induction l as [|v l IH]; intros ds.
  { intros [= <-]. by split. }
  cbn [mapM]. destruct (cleanVar v) as [d|] eqn:Hd; [|discriminate]. cbn.
  destruct (mapM cleanVar l) as [ds'|]; [|discriminate]. cbn.
  intros [= <-]. destruct (IH ds' eq_refl) as [Hlen Hall].
  split; [cbn; by rewrite Hlen|].
  constructor; [by eapply cleanVar_trimmed|done].
Qed.

Lemma normalizeVars_Some (vars : option json) (vs : list vardef) :
  normalizeVars vars = Normal (Some vs) →
  ∃ l ds, vars = Some (JArr l) ∧ mapM cleanVar l = Normal ds
          ∧ vs = filter kept ds ∧ vs ≠ [].
Proof.
  destruct vars as [[| | | |l|]|]; try discriminate.
  unfold normalizeVars. destruct (decide _); [discriminate|].
  destruct (mapM cleanVar l) as [ds|] eqn:Hds; [|discriminate]. cbn.
  destruct (decide _) as [|Hne]; [discriminate|].
  intros [= <-]. exists l, ds. repeat split; try done.
  by intros Heq; rewrite Heq in Hne.
Qed.

Lemma filter_kept_clean (ds : list vardef) :
  Forall (λ d, trim (key d) = key d ∧ trim (label d) = label d) ds →
  Forall clean_entry (filter kept ds).
Proof.
  induction 1 as [|d ds [Hk Hl] _ IH]; [constructor|].
  rewrite filter_cons. case_decide as Hd; [|done].
  constructor; [|done]. unfold kept in Hd.
  apply andb_prop_elim in Hd as [H1 H2].
  apply Is_true_true, nonempty_true in H1.
  apply Is_true_true, nonempty_true in H2. done.
Qed.

(** X6: when [normalizeVars] returns entries, its input was an array,
    the entries are at least one and no more than the array had
    elements, and every entry has a key and a label that are not empty
    and have no white space at either end. *)
Theorem normalizeVars_entries (vars : option json) (vs : list vardef) :
  normalizeVars vars = Normal (Some vs) →
  ∃ l, vars = Some (JArr l)
       ∧ 0 < length vs ≤ length l
       ∧ Forall clean_entry vs.
Proof.
  intros (l & ds & -> & Hds & -> & Hne)%normalizeVars_Some.
  apply mapM_cleanVar_trimmed in Hds as [Hlen Hall].
  exists l. split; [done|]. split.
  - split; [destruct (filter kept ds); [done|cbn; lia]|].
    rewrite <- Hlen. apply length_filter.
  - by apply filter_kept_clean.
Qed.

Lemma vardef_json_fields (d : vardef) :
  prop (vardef_json d) "key" = Some (JStr (key d))
  ∧ prop (vardef_json d) "label" = Some (JStr (label d))
  ∧ prop (vardef_json d) "placeholder" = JStr <$> placeholder d.
Proof. destruct d as [k l [p|]]; repeat split; vm_compute; reflexivity. Qed.

Lemma cleanVar_stored (d : vardef) :
  clean_entry d → cleanVar (vardef_json d) = Normal d.
Proof.
  intros (Hk & Hl & Htk & Htl).
  destruct (vardef_json_fields d) as (Ek & El & Ep).
  unfold cleanVar. rewrite Ek, El, Ep. cbn.
  rewrite Htk, Htl. by destruct d as [k l [p|]].
Qed.

Lemma normalizeVars_stored_entries (vs : list vardef) :
  vs ≠ [] → Forall clean_entry vs →
  normalizeVars (Some (vars_json vs)) = Normal (Some vs).
Proof.
  intros Hne Hall. unfold normalizeVars, vars_json.
  rewrite length_fmap.
  destruct (decide (length vs = 0)) as [Hz|_];
    [by destruct vs|].
  assert (mapM cleanVar (vardef_json <$> vs) = Normal vs) as ->.
  { clear Hne. induction Hall as [|d ds Hd _ IH]; [done|].
    cbn. by rewrite cleanVar_stored, IH. }
  cbn.
  assert (filter kept vs = vs) as ->.
  { clear Hne. induction Hall as [|d ds Hd _ IH]; [done|].
    rewrite filter_cons, IH. rewrite decide_True; [done|].
    destruct Hd as (Hk & Hl & _). unfold kept.
    apply nonempty_true in Hk, Hl. by rewrite Hk, Hl. }
  destruct (decide (length vs = 0)); [by destruct vs|done].
Qed.

(** X7: the entries [normalizeVars] returned, written to the file and
    read back, are left as they are by [normalizeVars]: normalising
    what was stored changes nothing. *)
Theorem normalizeVars_stored (vars : option json) (vs : list vardef) :
  normalizeVars vars = Normal (Some vs) →
  normalizeVars (Some (vars_json vs)) = Normal (Some vs).
Proof.
  intros H.
  destruct (normalizeVars_Some _ _ H) as (l & ds & -> & Hds & -> & Hne).
  apply normalizeVars_stored_entries; [done|].
  apply filter_kept_clean. by apply mapM_cleanVar_trimmed in Hds as [_ ?].
Qed.

Lemma mapM_ToString_strings (ss : list string) :
  mapM ToString (JStr <$> ss) = Normal ss.
Proof. induction ss as [|s ss IH]; [done|]. cbn. by rewrite IH. Qed.

Lemma mapM_length {A B} (f : A → completion B) (l : list A) (k : list B) :
  mapM f l = Normal k → length k = length l.
Proof.
  revert k. induction l as [|x l IH]; intros k; [by intros [= <-]|].
  cbn [mapM]. destruct (f x); [|discriminate]. cbn.
  destruct (mapM f l) as [k'|]; [|discriminate]. cbn.
  intros [= <-]. cbn. by rewrite (IH k').
Qed.

Lemma normalizeCommands_strings (ss : list string) :
  ss ≠ [] →
  normalizeCommands (Some (JArr (JStr <$> ss))) = Normal (Some (JArr (JStr <$> ss))).
Proof.
  intros Hne. unfold normalizeCommands. rewrite length_fmap.
  destruct (decide (length ss = 0)); [by destruct ss|].
  by rewrite mapM_ToString_strings.
Qed.

(** X8: when the normalisation of [commands] returns a value, the input
    was an array that is not empty and the value is the array of its
    elements as strings, one for one in order; normalising that value
    again returns it. *)
Theorem normalizeCommands_value (c : option json) (r : json) :
  normalizeCommands c = Normal (Some r) →
  ∃ (l : list json) (ss : list string),
    c = Some (JArr l) ∧ l ≠ []
    ∧ mapM ToString l = Normal ss
    ∧ length ss = length l
    ∧ r = JArr (JStr <$> ss)
    ∧ normalizeCommands (Some r) = Normal (Some r).
Proof.
  destruct c as [[| | | |l|]|]; try discriminate.
  unfold normalizeCommands. destruct (decide _) as [|Hne]; [discriminate|].
  destruct (mapM ToString l) as [ss|] eqn:Hss; [|discriminate]. cbn.
  intros [= <-]. exists l, ss.
  pose proof (mapM_length _ _ _ Hss) as Hlen.
  split; [done|]. split; [by intros ->|]. split; [done|]. split; [done|].
  split; [done|].
  apply normalizeCommands_strings. intros ->. by rewrite <- Hlen in Hne.
Qed.

End Normalisations.

(** ** What a request does to the world *)

Section Requests.
Context `{Num : Numbers}.

Lemma raises_bind {A B} (c : completion A) (f : A → completion B) :
  raises_TypeError c → (∀ a, raises_TypeError (f a)) →
  raises_TypeError (a ← c; f a).
Proof.
  intros Hc Hf x. destruct c as [a|y]; cbn.
  - apply Hf.
  - intros [= <-]. by apply Hc.
Qed.

Lemma raises_Normal {A} (a : A) : raises_TypeError (Normal a).
Proof. by intros x. Qed.

Lemma raises_fmap {A B} (g : A → B) (c : completion A) :
  raises_TypeError c → raises_TypeError (g <$> c).
Proof. intros Hc x. destruct c as [a|y]; [done|]. intros [= <-]. by apply Hc. Qed.

Lemma element_string_raises (x : json) :
  raises_TypeError (ToString x) → raises_TypeError (element_string x).
Proof. by destruct x. Qed.

Lemma ToString_raises (v : json) : raises_TypeError (ToString v).
Proof.
  induction v as [| b | n | s | l IHl | m] using json_nested_ind;
    try apply raises_Normal.
  - rewrite ToString_array.
    induction IHl as [|x l Hx _ IH]; [apply raises_Normal|].
    cbn [join]. apply raises_bind; [by apply element_string_raises|].
    intros s. destruct l as [|y l]; [apply raises_Normal|].
    apply raises_bind; [done|]. intros t. apply raises_Normal.
  - cbn. destruct (m !! "toString"); [|apply raises_Normal].
    by intros x [= <-].
Qed.

Lemma String_raises (o : option json) : raises_TypeError (String_ o).
Proof. destruct o; [apply ToString_raises|apply raises_Normal]. Qed.

Lemma mapM_raises {A B} (f : A → completion B) (l : list A) :
  (∀ a, raises_TypeError (f a)) → raises_TypeError (mapM f l).
Proof.
  intros Hf. induction l as [|a l IH]; [apply raises_Normal|].
  cbn [mapM]. apply raises_bind; [done|]. intros b.
  apply raises_bind; [done|]. intros k. apply raises_Normal.
Qed.

Lemma cleanVar_raises (v : json) : raises_TypeError (cleanVar v).
Proof.
  unfold cleanVar.
  repeat (apply raises_bind;
          [destruct (not_nullish _);
           [apply raises_fmap, String_raises|apply raises_Normal]|intros ?]).
  apply raises_Normal.
Qed.

Lemma normalizeVars_raises_TypeError (vars : option json) :
  raises_TypeError (normalizeVars vars).
Proof.
  destruct vars as [[| | | |l|]|]; try apply raises_Normal.
  unfold normalizeVars. destruct (decide _); [apply raises_Normal|].
  apply raises_bind; [apply mapM_raises, cleanVar_raises|].
  intros ds. apply raises_Normal.
Qed.

Lemma normalizeCommands_raises (c : option json) :
  raises_TypeError (normalizeCommands c).
Proof.
  destruct c as [[| | | |l|]|]; try apply raises_Normal.
  unfold normalizeCommands. destruct (decide _); [apply raises_Normal|].
  apply raises_bind; [apply mapM_raises, ToString_raises|].
  intros ss. apply raises_Normal.
Qed.

Lemma new_step_raises (e : env) (b : json) : raises_TypeError (new_step e b).
Proof.
  unfold new_step.
  do 4 (apply raises_bind; [apply String_raises|intros ?]).
  apply raises_bind; [apply normalizeCommands_raises|intros ?].
  apply raises_bind; [apply normalizeVars_raises_TypeError|intros ?].
  apply raises_Normal.
Qed.

Lemma renormalize_raises (u : gmap string json) :
  raises_TypeError (renormalize u).
Proof.
  rewrite renormalize_run.
  apply raises_bind; [apply normalizeCommands_raises|intros ?].
  apply raises_bind; [apply normalizeVars_raises_TypeError|intros ?].
  apply raises_Normal.
Qed.

Lemma has_id_raises (id : string) (s : json) : raises_TypeError (has_id id s).
Proof. destruct s; try apply raises_Normal. by intros x [= <-]. Qed.

Lemma lacks_id_raises (id : string) (s : json) :
  raises_TypeError (lacks_id id s).
Proof. destruct s; try apply raises_Normal. by intros x [= <-]. Qed.

Lemma findIndex_raises (p : json → completion bool) (l : list json) :
  (∀ s, raises_TypeError (p s)) → raises_TypeError (findIndex p l).
Proof.
  intros Hp. induction l as [|s l IH]; [apply raises_Normal|].
  cbn [findIndex]. apply raises_bind; [done|]. intros [|]; [apply raises_Normal|].
  apply raises_bind; [done|]. intros i. apply raises_Normal.
Qed.

Lemma filter_by_raises (p : json → completion bool) (l : list json) :
  (∀ s, raises_TypeError (p s)) → raises_TypeError (filter_by p l).
Proof.
  intros Hp. induction l as [|s l IH]; [apply raises_Normal|].
  cbn [filter_by]. apply raises_bind; [done|]. intros b.
  apply raises_bind; [done|]. intros r. apply raises_Normal.
Qed.

Lemma load_raises (f : option document) (x : exn) :
  load f = Throw x → x = SyntaxError ∧ f = Some Unparsable.
Proof. destruct f as [[|v]|]; try discriminate. by intros [= <-]. Qed.

(** X9: a request that raises a [SyntaxError] or a [TypeError] has
    saved nothing and leaves the collection as it was; the data file
    exists afterwards.  The [SyntaxError] is that of a data file that is
    not JSON; a [TypeError] is raised after the collection was read. *)
Theorem raise_saves_nothing (rq : request) (e : env) (w : world) (x : exn) :
  (handle rq e w).1 = Throw x →
  x = SyntaxError ∨ x = TypeError →
  (handle rq e w).2 = ensured w
  ∧ saves (handle rq e w).2 = saves w
  ∧ load (file (handle rq e w).2) = load (file w)
  ∧ (x = SyntaxError → file w = Some Unparsable)
  ∧ (x = TypeError → ∃ steps, load (file w) = Normal steps).
Proof.
  intros Hx _.
  enough ((handle rq e w).2 = ensured w
          ∧ saves (handle rq e w).2 = saves w
          ∧ load (file (handle rq e w).2) = load (file w)
          ∧ ((x = SyntaxError ∧ file w = Some Unparsable)
             ∨ (x = TypeError ∧ ∃ steps, load (file w) = Normal steps)))
    as (H1 & H2 & H3 & H4).
  { repeat split; try done.
    - intros ->. by destruct H4 as [[_ ?]|[? _]].
    - intros ->. by destruct H4 as [[? _]|[_ ?]]. }
  revert Hx.
  pose proof (load_ensured w) as Hle.
  destruct rq as [| |body|id body|id]; cbn [handle].
  - discriminate.
  - rewrite get_steps_run.
    destruct (load (file w)) as [steps|y] eqn:Hload; [discriminate|].
    cbn [fst snd]. intros [= <-]. repeat split; try done.
    left. by apply load_raises.
  - rewrite post_steps_run. destruct (required_missing _); [discriminate|].
    destruct (load (file w)) as [steps|y] eqn:Hload.
    + destruct (new_step e _) as [step|y] eqn:Hstep; [discriminate|].
      cbn [fst snd]. intros [= <-]. repeat split; try done.
      right. split; [by eapply new_step_raises|eauto].
    + cbn [fst snd]. intros [= <-]. repeat split; try done.
      left. by apply load_raises.
  - rewrite put_steps_run.
    destruct (load (file w)) as [steps|y] eqn:Hload.
    + destruct (findIndex _ steps) as [[i|]|y] eqn:Hfind.
      * cbn zeta. destruct (required_missing _); [discriminate|].
        destruct (renormalize _) as [u|y] eqn:Hu; [discriminate|].
        cbn [fst snd]. intros [= <-]. repeat split; try done.
        right. split; [by eapply renormalize_raises|eauto].
      * discriminate.
      * cbn [fst snd]. intros [= <-]. repeat split; try done.
        right. split; [|eauto].
        eapply (findIndex_raises (has_id id) steps); [|done].
        apply has_id_raises.
    + cbn [fst snd]. intros [= <-]. repeat split; try done.
      left. by apply load_raises.
  - rewrite delete_steps_run.
    destruct (load (file w)) as [steps|y] eqn:Hload.
    + destruct (filter_by _ steps) as [next|y] eqn:Hnext.
      * destruct (decide _); discriminate.
      * cbn [fst snd]. intros [= <-]. repeat split; try done.
        right. split; [|eauto].
        eapply (filter_by_raises (lacks_id id) steps); [|done].
        apply lacks_id_raises.
    + cbn [fst snd]. intros [= <-]. repeat split; try done.
      left. by apply load_raises.
Qed.

(** A request saves at most once, and then the file holds the save. *)
Lemma handle_saves (rq : request) (e : env) (w : world) :
  (saves (handle rq e w).2 = saves w
   ∧ ((handle rq e w).2 = w ∨ (handle rq e w).2 = ensured w))
  ∨ ∃ s, (handle rq e w).2 = saved s (ensured w).
Proof.
  destruct rq as [| |body|id body|id]; cbn [handle].
  - left. split; [done|by left].
  - rewrite get_steps_run. destruct (load _); left; split; by try right.
  - rewrite post_steps_run. destruct (required_missing _).
    { left. split; [done|by left]. }
    destruct (load _); [|left; split; by try right].
    destruct (new_step _ _); [right; by eexists|left; split; by try right].
  - rewrite put_steps_run. destruct (load _) as [steps|]; [|left; split; by try right].
    destruct (findIndex _ _) as [[i|]|]; try (left; split; by try right).
    cbn zeta. destruct (required_missing _); [left; split; by try right|].
    destruct (renormalize _); [right; by eexists|left; split; by try right].
  - rewrite delete_steps_run. destruct (load _) as [steps|]; [|left; split; by try right].
    destruct (filter_by _ _); [|left; split; by try right].
    destruct (decide _); [left; split; by try right|right; by eexists].
Qed.

(** X10: from the initial world on, whatever the requests were, the data
    file holds the sequence that was saved last; while nothing was saved
    there is no file or it holds the empty array. *)
Theorem reachable_file_is_last_save (w : world) :
  reachable w → file_is_last_save w.
Proof.
  induction 1 as [|w rq e _ IH]; [by left|].
  destruct (handle_saves rq e w) as [[Hs [->| ->]]|[s ->]]; try done.
  unfold file_is_last_save in *. cbn [saves ensured file].
  destruct (saves w) as [|s sv].
  - destruct IH as [->| ->]; by right.
  - by rewrite IH.
Qed.

End Requests.

(** ** What the handlers keep of a record *)

Section Records.
Context `{Num : Numbers}.

Lemma normalizeCommands_normal (c r : option json) :
  normalizeCommands c = Normal r → normal_commands r.
Proof.
  destruct c as [[| | | |l|]|]; try (intros [= <-]; by left).
  unfold normalizeCommands. destruct (decide _) as [|Hne]; [intros [= <-]; by left|].
  destruct (mapM ToString l) as [ss|] eqn:Hss; [|discriminate]. cbn.
  intros [= <-]. right. exists ss. split; [|done].
  intros ->. apply mapM_length in Hss. by rewrite <- Hss in Hne.
Qed.

Lemma normalizeVars_normal (v : option json) (r : option (list vardef)) :
  normalizeVars v = Normal r → normal_vars (vars_json <$> r).
Proof.
  destruct r as [vs|]; [|by left].
  intros (l & ds & -> & Hds & -> & Hne)%normalizeVars_Some.
  right. exists (filter kept ds). split; [done|]. split; [|done].
  apply filter_kept_clean. by apply mapM_cleanVar_trimmed in Hds as [_ ?].
Qed.

Lemma new_step_cases (e : env) (b s : json) :
  new_step e b = Normal s →
  ∃ t c i n cmds vs,
    String_ (prop b "title") = Normal t
    ∧ String_ (prop b "category") = Normal c
    ∧ String_ (prop b "icon") = Normal i
    ∧ String_ (prop b "content") = Normal n
    ∧ normalizeCommands (prop b "commands") = Normal cmds
    ∧ normalizeVars (prop b "vars") = Normal vs.
Proof.
  unfold new_step.
  destruct (String_ (prop b "title")) as [t|]; [|discriminate].
  destruct (String_ (prop b "category")) as [c|]; [|discriminate].
  destruct (String_ (prop b "icon")) as [i|]; [|discriminate].
  destruct (String_ (prop b "content")) as [n|]; [|discriminate].
  destruct (normalizeCommands _) as [cmds|]; [|discriminate].
  destruct (normalizeVars _) as [vs|]; [|discriminate].
  intros _. by exists t, c, i, n, cmds, vs.
Qed.

Lemma new_step_kept (e : env) (b s : json) :
  new_step e b = Normal s →
  kept_record s ∧ prop s "id" = Some (JStr (newId e)).
Proof.
  intros Hs.
  destruct (new_step_cases _ _ _ Hs) as (t & c & i & n & cmds & vs & Ht & Hc & Hi & Hn & Hcmds & Hvs).
  destruct (new_step_fields e b _ _ _ _ _ _ Ht Hc Hi Hn Hcmds Hvs)
    as (m & Hm & Hid & Hat & Hft & Hfc & Hfi & Hfn & Hfcmds & Hfvs).
  rewrite Hs in Hm. injection Hm as ->.
  split; [|done]. exists m. split; [done|].
  split; [eauto|]. split; [eauto|]. split.
  - intros k Hk. unfold required_fields in Hk.
    rewrite !elem_of_cons, elem_of_nil in Hk.
    destruct Hk as [->|[->|[->|[->|[]]]]]; by eexists.
  - rewrite Hfcmds, Hfvs.
    split; [by eapply normalizeCommands_normal|by eapply normalizeVars_normal].
Qed.

Lemma required_present (m : gmap string json) (k : string) :
  required_missing (JObj m) = false → k ∈ required_fields →
  ∃ v, m !! k = Some v ∧ truthy (Some v) = true.
Proof.
  unfold required_missing. cbn [prop]. intros Hreq Hk.
  apply orb_false_elim in Hreq as [Hreq H4].
  apply orb_false_elim in Hreq as [Hreq H3].
  apply orb_false_elim in Hreq as [H1 H2].
  apply negb_false_iff in H1, H2, H3, H4.
  unfold required_fields in Hk. rewrite !elem_of_cons, elem_of_nil in Hk.
  destruct Hk as [->|[->|[->|[->|[]]]]];
    match goal with
    | H : truthy (?m !! ?k) = true |- ∃ v, ?m !! ?k = Some v ∧ _ =>
        destruct (m !! k) as [v|]; [by exists v|discriminate]
    end.
Qed.

Lemma required_not_managed (k : string) :
  k ∈ required_fields → k ≠ "commands" ∧ k ≠ "vars".
Proof.
  unfold required_fields. rewrite !elem_of_cons, elem_of_nil.
  by intros [->|[->|[->|[->|[]]]]].
Qed.

Lemma updated_kept (old u : gmap string json) (patch : json) (id : string)
    (e : env) :
  kept_record (JObj old) →
  required_missing (JObj (merged (Some (JObj old)) patch id e)) = false →
  renormalize (merged (Some (JObj old)) patch id e) = Normal u →
  kept_record (JObj u).
Proof.
  intros (m & [= <-] & _ & [at_ Hat] & _ & _ & _) Hreq Hu.
  apply renormalize_fields in Hu as (c & v & Hc & Hv & Huc & Huv & Hk).
  exists u. split; [done|]. split; [|split; [|split; [|split]]].
  - exists id. rewrite Hk by done. apply merged_id.
  - rewrite Hk, merged_shallow by done. unfold shallow.
    destruct (own_props patch !! "createdAt"); [done|]. by rewrite Hat.
  - intros k Hin. destruct (required_present _ k Hreq Hin) as (x & Hx & Htr).
    exists x. destruct (required_not_managed k Hin). by rewrite Hk.
  - rewrite Huc. by eapply normalizeCommands_normal.
  - rewrite Huv. by eapply normalizeVars_normal.
Qed.

(** The invariant of the collection. *)
Lemma reachable_kept (w : world) :
  reachable w → ∃ steps, load (file w) = Normal steps ∧ Forall kept_record steps.
Proof.
  induction 1 as [|w rq e _ (steps & Hload & Hrec)].
  { exists []. by split. }
  assert (∃ l, load (file (ensured w)) = Normal l ∧ Forall kept_record l) as Hens
    by (rewrite load_ensured; eauto).
  assert (∀ l, Forall kept_record l →
               ∃ l', load (file (saved l (ensured w))) = Normal l'
                     ∧ Forall kept_record l') as Hsaved by eauto.
  destruct rq as [| |body|id body|id]; cbn [handle].
  - eauto.
  - rewrite get_steps_run, Hload. exact Hens.
  - rewrite post_steps_run, Hload.
    destruct (required_missing _); [eauto|].
    destruct (new_step _ _) as [step|] eqn:Hstep; [|exact Hens].
    apply Hsaved. constructor; [by eapply new_step_kept|done].
  - rewrite put_steps_run, Hload.
    destruct (findIndex _ steps) as [[i|]|] eqn:Hfind; try exact Hens.
    apply findIndex_Some in Hfind as (x & Hx & Hid & _).
    apply has_id_true in Hid as (old & -> & Hold).
    rewrite Hx. cbn zeta.
    destruct (required_missing _) eqn:Hreq; [exact Hens|].
    destruct (renormalize _) as [u|] eqn:Hu; [|exact Hens].
    apply Hsaved, Forall_insert; [done|].
    eapply updated_kept; [|done..].
    by eapply Forall_lookup_1 in Hrec.
  - rewrite delete_steps_run, Hload.
    destruct (filter_by _ steps) as [next|] eqn:Hnext; [|exact Hens].
    destruct (decide _); [exact Hens|].
    by eapply Hsaved, filter_by_Forall.
Qed.

(** X11: from the initial world on, whatever the requests were, the data
    file loads as a sequence of records; every record is an object with
    a string [id], with [createdAt] and the four required fields among
    its properties, with [commands] absent or an array of strings that
    is not empty, and with [vars] absent or an array, not empty, of
    entries whose key and label are not empty and are trimmed. *)
Theorem reachable_records_kept (w : world) :
  reachable w →
  ∃ steps, load (file w) = Normal steps ∧ Forall kept_record steps.
Proof. apply reachable_kept. Qed.

(** ** How the requests compose *)



Lemma required_missing_updatedAt (m : gmap string json) (v : json) :
  required_missing (JObj (<["updatedAt" := v]> m)) = required_missing (JObj m).
Proof. unfold required_missing. cbn [prop]. by rewrite !lookup_insert_ne. Qed.

Lemma renormalize_normal (u : gmap string json) :
  normal_commands (u !! "commands") → normal_vars (u !! "vars") →
  renormalize u = Normal u.
Proof.
  intros Hc Hv. rewrite renormalize_run.
  assert (∃ c, normalizeCommands (u !! "commands") = Normal c
               ∧ set_opt "commands" c u = u) as (c & -> & Hsc).
  { destruct Hc as [Hc|(ss & Hne & Hc)]; rewrite Hc.
    - exists None. split; [done|]. by apply delete_id.
    - eexists. split; [by apply normalizeCommands_strings|].
      by apply insert_id. }
  cbn. rewrite Hsc.
  assert (∃ v, normalizeVars (u !! "vars") = Normal v
               ∧ set_opt "vars" (vars_json <$> v) u = u) as (v & -> & Hsv).
  { destruct Hv as [Hv|(vs & Hne & Hall & Hv)]; rewrite Hv.
    - exists None. split; [done|]. by apply delete_id.
    - exists (Some vs). split; [by apply normalizeVars_stored_entries|].
      by apply insert_id. }
  cbn. by rewrite Hsv.
Qed.

(** X13: an update without a body of a record whose required fields are
    truthy and whose [commands] and [vars] are as the handlers store
    them is answered 200 and changes the record in [updatedAt] only. *)
Theorem put_steps_empty_patch (id : string) (e : env) (w : world)
    (steps : list json) (i : nat) (old : gmap string json) :
  load (file w) = Normal steps →
  findIndex (has_id id) steps = Normal (Some i) →
  steps !! i = Some (JObj old) →
  required_missing (JObj old) = false →
  normal_commands (old !! "commands") →
  normal_vars (old !! "vars") →
  put_steps id None e w
  = (Normal (Response 200
       (Some (JObj (<["updatedAt" := JStr (now_iso e)]> old)))),
     saved (<[i := JObj (<["updatedAt" := JStr (now_iso e)]> old)]> steps)
       (ensured w)).
Proof.
  intros Hload Hfind Hold Hreq Hc Hv.
  assert (old !! "id" = Some (JStr id)) as Hid.
  { apply findIndex_Some in Hfind as (x & Hx & Hx' & _).
    rewrite Hold in Hx. injection Hx as <-.
    apply has_id_true in Hx' as (m & [= <-] & Hm). done. }
  assert (merged (Some (JObj old)) (or_empty None) id e
          = <["updatedAt" := JStr (now_iso e)]> old) as Hm.
  { unfold merged. cbn. by rewrite (left_id_L ∅ (∪)), (insert_id old "id"). }
  apply put_steps_found; [done|done|..]; rewrite Hold, Hm.
  - by rewrite required_missing_updatedAt.
  - apply renormalize_normal; by rewrite lookup_insert_ne.
Qed.

(** X14: a create request in which one of the four required fields is
    falsy or absent, as in every request without a body, is answered
    400 before the data file is read: the world stays as it is, with a
    file that is missing or not JSON too. *)
Theorem post_steps_requires (body : option json) (e : env) (w : world)
    (k : string) :
  k ∈ required_fields →
  truthy (prop (or_empty body) k) = false →
  post_steps body e w
  = (Normal (Response 400 (Some (message required_message))), w).
Proof.
  intros Hk Hf. rewrite post_steps_run.
  enough (required_missing (or_empty body) = true) as -> by done.
  unfold required_missing, required_fields in *.
  rewrite !elem_of_cons, elem_of_nil in Hk.
  destruct Hk as [->|[->|[->|[->|[]]]]]; rewrite Hf; cbn;
    by rewrite ?orb_true_r.
Qed.

(** X15: an update, whatever it is answered, leaves the identifiers of
    the collection as they were, each at its position. *)
Theorem put_steps_keeps_ids (id : string) (body : option json) (e : env)
    (w : world) :
  stored_field "id" (put_steps id body e w).2 = stored_field "id" w.
Proof.
  assert (stored_field "id" (ensured w) = stored_field "id" w) as Hens
    by (unfold stored_field; by rewrite load_ensured).
  rewrite put_steps_run.
  destruct (load (file w)) as [steps|] eqn:Hload; [|done].
  destruct (findIndex _ steps) as [[i|]|] eqn:Hfind; try done.
  cbn zeta. destruct (required_missing _); [done|].
  destruct (renormalize _) as [u|] eqn:Hu; [|done].
  cbn [snd]. unfold stored_field. rewrite Hload. cbn [file saved].
  cbn. f_equal.
  apply findIndex_Some in Hfind as (x & Hx & Hid & _).
  apply has_id_true in Hid as (old & -> & Hold).
  apply renormalize_fields in Hu as (_ & _ & _ & _ & _ & _ & Hk).
  rewrite list_fmap_insert. apply list_insert_id.
  rewrite list_lookup_fmap, Hx. cbn. by rewrite Hk, merged_id, Hold.
Qed.

Lemma forallb_Forall_true {A} (f : A → bool) (l : list A) :
  forallb f l = true → Forall (λ x, f x = true) l.
Proof.
  induction l as [|x l IH]; [constructor|].
  cbn. intros [? ?]%andb_prop. constructor; auto.
Qed.

Lemma mapM_ToString_returns (l : list json) :
  forallb printable l = true → returns (mapM ToString l).
Proof.
  intros H%forallb_Forall_true.
  induction H as [|v l Hv _ IH]; [apply returns_Normal|].
  cbn [mapM]. apply ToString_printable in Hv as [s ->].
  destruct IH as [ss ->]. apply returns_Normal.
Qed.

Lemma normalizeCommands_returns (c : option json) :
  match c with Some (JArr l) => forallb printable l | _ => true end = true →
  returns (normalizeCommands c).
Proof.
  destruct c as [[| | | |l|]|]; try (intros _; apply returns_Normal).
  intros H. unfold normalizeCommands.
  destruct (decide _); [apply returns_Normal|].
  destruct (mapM_ToString_returns l H) as [ss ->]. apply returns_Normal.
Qed.

Lemma normalizeVars_returns_bool (c : option json) :
  match c with Some (JArr l) => forallb entry_printable l | _ => true end = true →
  returns (normalizeVars c).
Proof.
  intros H. apply normalizeVars_returns. intros l ->.
  by apply forallb_Forall_true.
Qed.

Lemma new_step_returns (e : env) (b : json) :
  body_printable b = true → returns (new_step e b).
Proof.
  unfold body_printable.
  intros [[[[[Ht Hc]%andb_prop Hi]%andb_prop Hn]%andb_prop Hcm]%andb_prop Hv]%andb_prop.
  unfold new_step.
  destruct (String_printable _ Ht) as [t ->].
  destruct (String_printable _ Hc) as [c ->].
  destruct (String_printable _ Hi) as [i ->].
  destruct (String_printable _ Hn) as [n ->].
  destruct (normalizeCommands_returns _ Hcm) as [cmds ->].
  destruct (normalizeVars_returns_bool _ Hv) as [vs ->].
  apply returns_Normal.
Qed.

Lemma normal_commands_returns (o : option json) :
  normal_commands o → returns (normalizeCommands o).
Proof.
  intros [->|(ss & Hne & ->)]; [apply returns_Normal|].
  rewrite normalizeCommands_strings by done. apply returns_Normal.
Qed.

Lemma normal_vars_returns (o : option json) :
  normal_vars o → returns (normalizeVars o).
Proof.
  intros [->|(vs & Hne & Hall & ->)]; [apply returns_Normal|].
  rewrite normalizeVars_stored_entries by done. apply returns_Normal.
Qed.

Lemma renormalize_returns (old : gmap string json) (patch : json)
    (id : string) (e : env) :
  kept_record (JObj old) → patch_printable patch = true →
  returns (renormalize (merged (Some (JObj old)) patch id e)).
Proof.
  intros (m & [= <-] & _ & _ & _ & Hc & Hv) [Hpc Hpv]%andb_prop.
  rewrite renormalize_run, !merged_shallow by done. unfold shallow.
  assert (returns (normalizeCommands
            match own_props patch !! "commands" with
            | Some v => Some v
            | None => old !! "commands"
            end)) as [c ->].
  { destruct (own_props patch !! "commands") as [v|];
      [by apply normalizeCommands_returns|by apply normal_commands_returns]. }
  assert (returns (normalizeVars
            match own_props patch !! "vars" with
            | Some v => Some v
            | None => old !! "vars"
            end)) as [v ->].
  { destruct (own_props patch !! "vars") as [v|];
      [by apply normalizeVars_returns_bool|by apply normal_vars_returns]. }
  apply returns_Normal.
Qed.

Lemma kept_not_null (steps : list json) :
  Forall kept_record steps → Forall (λ s, s ≠ JNull) steps.
Proof. intros H. eapply Forall_impl; [exact H|]. by intros s (m & -> & _). Qed.

Lemma findIndex_returns (id : string) (l : list json) :
  Forall (λ s, s ≠ JNull) l → returns (findIndex (has_id id) l).
Proof.
  induction 1 as [|s l Hs _ [i IH]]; [apply returns_Normal|].
  cbn [findIndex]. rewrite has_id_matching, IH by done. cbn.
  destruct (matching id s); apply returns_Normal.
Qed.

Ltac status_listed :=
  cbn [status];
  repeat first [apply list_elem_of_here | apply list_elem_of_further].

(** X16: from the initial world on, a request raises a [TypeError]
    only when its body has a value on which [String] raises where the
    handler prints: an object with a property [toString] of its own in
    a required field, in [commands] or in an entry of [vars] of a create
    request, in [commands] or in an entry of [vars] of a patch.  The
    records the handlers stored never make a later request raise it. *)
Theorem printable_request_no_TypeError (rq : request) (e : env) (w : world) :
  reachable w →
  request_printable rq = true →
  (handle rq e w).1 ≠ Throw TypeError.
Proof.
  intros (steps & Hload & Hrec)%reachable_kept Hp.
  pose proof (kept_not_null _ Hrec) as Hnn.
  destruct rq as [| |body|id body|id]; cbn [handle request_printable] in *.
  - done.
  - by rewrite get_steps_run, Hload.
  - rewrite post_steps_run, Hload.
    destruct (required_missing _); [done|].
    by destruct (new_step_returns e _ Hp) as [step ->].
  - rewrite put_steps_run, Hload.
    destruct (findIndex_returns id steps Hnn) as [idx Hfind]. rewrite Hfind.
    destruct idx as [i|]; [|done].
    apply findIndex_Some in Hfind as (x & Hx & Hid & _).
    apply has_id_true in Hid as (old & -> & Hold).
    rewrite Hx. cbn zeta.
    destruct (required_missing _); [done|].
    eapply Forall_lookup_1 in Hrec; [|done].
    by destruct (renormalize_returns old _ id e Hrec Hp) as [u ->].
  - rewrite delete_steps_run, Hload, filter_by_lacks by done.
    by destruct (decide _).
Qed.

(** X17: after a delete that was answered 204 no record carries the
    identifier: an update of it is answered 404, whatever the patch. *)
Theorem delete_then_update (id : string) (body : option json) (e : env)
    (w : world) (steps : list json) :
  load (file w) = Normal steps →
  Forall (λ s, s ≠ JNull) steps →
  answered (delete_steps id w) = Normal 204 →
  (put_steps id body e (delete_steps id w).2).1
  = Normal (Response 404 (Some (message "not found")))
  ∧ Forall (λ s, matching id s = false) (filter (λ s, ¬ matching id s) steps)
  ∧ load (file (delete_steps id w).2)
    = Normal (filter (λ s, ¬ matching id s) steps).
Proof.
  intros Hload Hnn.
  rewrite delete_steps_run, Hload, filter_by_lacks by done.
  destruct (decide _); [discriminate|]. intros _. cbn [snd].
  split; [|split; [apply filter_lacking|done]].
  rewrite (put_steps_unknown id body e _ (filter (λ s, ¬ matching id s) steps));
    [done..|].
  apply Forall_and. split; [by apply filter_not_null|apply filter_lacking].
Qed.

Lemma new_step_only (e : env) (b s : json) :
  new_step e b = Normal s →
  ∃ m, s = JObj m ∧ ∀ k, k ∉ created_fields → m !! k = None.
Proof.
  unfold new_step.
  destruct (String_ (prop b "title")) as [t|]; [|discriminate].
  destruct (String_ (prop b "category")) as [c|]; [|discriminate].
  destruct (String_ (prop b "icon")) as [i|]; [|discriminate].
  destruct (String_ (prop b "content")) as [n|]; [|discriminate].
  destruct (normalizeCommands _) as [cmds|]; [|discriminate].
  destruct (normalizeVars _) as [vs|]; [|discriminate].
  cbn -[set_opt]. intros [= <-]. eexists. split; [done|].
  intros k Hk. unfold created_fields in Hk.
  rewrite !not_elem_of_cons in Hk.
  destruct Hk as (? & ? & ? & ? & ? & ? & ? & ? & _).
  rewrite lookup_insert_ne, !lookup_set_opt, !decide_False by done.
  by rewrite !lookup_insert_ne, lookup_singleton_ne by done.
Qed.

(** X18: the Step a create request stores and answers with has no field
    besides [id], [title], [category], [icon], [content], [commands],
    [vars] and [createdAt]: every other field of the body is left
    out. *)
Theorem post_steps_drops_other_fields (body : option json) (e : env)
    (w : world) (k : string) :
  answered (post_steps body e w) = Normal 201 →
  k ∉ created_fields →
  answered_field k (post_steps body e w) = Normal None
  ∧ stored_field k (post_steps body e w).2
    = (λ l, None :: l) <$> stored_field k w.
Proof.
  rewrite post_steps_run.
  destruct (required_missing _); [discriminate|].
  unfold stored_field at 2.
  destruct (load (file w)) as [steps|] eqn:Hload; [|discriminate].
  destruct (new_step e _) as [step|] eqn:Hstep; [|discriminate].
  intros _ Hk. apply new_step_only in Hstep as (m & -> & Hm).
  unfold answered_field, stored_field. cbn. by rewrite (Hm k Hk).
Qed.

(** X19: a request saves at most once.  When it saves, it is a create,
    an update or a delete that is answered 201, 200 or 204, and the
    data file then holds the sequence that was saved. *)
Theorem handle_saves_once (rq : request) (e : env) (w : world) :
  saves (handle rq e w).2 = saves w
  ∨ ∃ s r,
      saves (handle rq e w).2 = s :: saves w
      ∧ load (file (handle rq e w).2) = Normal s
      ∧ mutation rq = true
      ∧ (handle rq e w).1 = Normal r
      ∧ status r ∈ [200; 201; 204].
Proof.
  destruct rq as [| |body|id body|id]; cbn [handle].
  - by left.
  - rewrite get_steps_run. destruct (load _); by left.
  - rewrite post_steps_run. destruct (required_missing _); [by left|].
    destruct (load _); [|by left].
    destruct (new_step _ _); [|by left].
    right. eexists _, _. repeat split; status_listed.
  - rewrite put_steps_run. destruct (load _) as [steps|]; [|by left].
    destruct (findIndex _ _) as [[i|]|]; try by left.
    cbn zeta. destruct (required_missing _); [by left|].
    destruct (renormalize _); [|by left].
    right. eexists _, _. repeat split; status_listed.
  - rewrite delete_steps_run. destruct (load _) as [steps|]; [|by left].
    destruct (filter_by _ _); [|by left].
    destruct (decide _); [by left|].
    right. eexists _, _. repeat split; status_listed.
Qed.

End Records.

(** ** The further theorems at sample requests *)

(** The initial world has no data file. *)
Lemma no_file_yet_witness :
  file initial = None
  ∧ get_steps initial
    = (Normal (Response 200 (Some (JArr []))), ensured initial)
  ∧ put_steps "1700000000000-8f3a1c" (Some title_patch) sample_env initial
    = (Normal (Response 404 (Some (message "not found"))), ensured initial)
  ∧ delete_steps "1700000000000-8f3a1c" initial
    = (Normal (Response 404 (Some (message "not found"))), ensured initial)
  ∧ file (ensured initial) = Some (Document (JArr []))
  ∧ saves (ensured initial) = saves initial.
Proof.
  split; [reflexivity|].
  exact (no_file_yet "1700000000000-8f3a1c" (Some title_patch) sample_env
           initial eq_refl).
Defined.

(** A delete on a data file that is not JSON. *)
Lemma unparsable_file_stays_witness :
  file corrupted = Some Unparsable
  ∧ (handle (DeleteSteps "1700000000000-8f3a1c") sample_env corrupted).2
    = corrupted
  ∧ (handle (DeleteSteps "1700000000000-8f3a1c") sample_env corrupted).1
    = Throw SyntaxError.
Proof.
  split; [reflexivity|].
  exact (unparsable_file_stays (DeleteSteps "1700000000000-8f3a1c")
           sample_env corrupted eq_refl).
Defined.

(** The two entries of the specification's example. *)
Lemma normalizeVars_entries_witness :
  normalizeVars (Some sample_vars)
  = Normal (Some [{| key := "p"; label := "Path"; placeholder := None |}])
  ∧ ∃ l, Some sample_vars = Some (JArr l)
         ∧ 0 < length [{| key := "p"; label := "Path"; placeholder := None |}]
           ≤ length l
         ∧ Forall clean_entry
             [{| key := "p"; label := "Path"; placeholder := None |}].
Proof.
  assert (normalizeVars (Some sample_vars)
          = Normal (Some [{| key := "p"; label := "Path"; placeholder := None |}]))
    as H by (vm_compute; reflexivity).
  split; [exact H|].
  exact (normalizeVars_entries (Some sample_vars) _ H).
Defined.

Lemma normalizeVars_stored_witness :
  normalizeVars (Some sample_vars)
  = Normal (Some [{| key := "p"; label := "Path"; placeholder := None |}])
  ∧ normalizeVars
      (Some (vars_json [{| key := "p"; label := "Path"; placeholder := None |}]))
    = Normal (Some [{| key := "p"; label := "Path"; placeholder := None |}]).
Proof.
  assert (normalizeVars (Some sample_vars)
          = Normal (Some [{| key := "p"; label := "Path"; placeholder := None |}]))
    as H by (vm_compute; reflexivity).
  split; [exact H|].
  exact (normalizeVars_stored (Some sample_vars) _ H).
Defined.

(** Commands that are a string and a boolean. *)
Lemma normalizeCommands_value_witness :
  normalizeCommands (Some mixed_commands)
  = Normal (Some (JArr [JStr "ls"; JStr "true"]))
  ∧ ∃ (l : list json) (ss : list string),
      Some mixed_commands = Some (JArr l) ∧ l ≠ []
      ∧ mapM ToString l = Normal ss
      ∧ length ss = length l
      ∧ JArr [JStr "ls"; JStr "true"] = JArr (JStr <$> ss)
      ∧ normalizeCommands (Some (JArr [JStr "ls"; JStr "true"]))
        = Normal (Some (JArr [JStr "ls"; JStr "true"])).
Proof.
  assert (normalizeCommands (Some mixed_commands)
          = Normal (Some (JArr [JStr "ls"; JStr "true"]))) as H
    by (vm_compute; reflexivity).
  split; [exact H|].
  exact (normalizeCommands_value (Some mixed_commands) _ H).
Defined.

(** A create request whose title cannot be printed, on the initial
    world. *)
Lemma raise_saves_nothing_witness :
  (handle (PostSteps (Some shadowing_body)) sample_env initial).1
  = Throw TypeError
  ∧ (handle (PostSteps (Some shadowing_body)) sample_env initial).2
    = ensured initial
  ∧ saves (handle (PostSteps (Some shadowing_body)) sample_env initial).2
    = saves initial
  ∧ load (file (handle (PostSteps (Some shadowing_body)) sample_env initial).2)
    = load (file initial)
  ∧ (TypeError = SyntaxError → file initial = Some Unparsable)
  ∧ (TypeError = TypeError → ∃ steps, load (file initial) = Normal steps).
Proof.
  assert ((handle (PostSteps (Some shadowing_body)) sample_env initial).1
          = Throw TypeError) as H by (vm_compute; reflexivity).
  split; [exact H|].
  exact (raise_saves_nothing _ sample_env initial TypeError H
           (or_intror eq_refl)).
Defined.

(** The world after one create request. *)
Lemma reachable_file_is_last_save_witness :
  reachable once_created ∧ file_is_last_save once_created.
Proof.
  split; [exact once_created_reachable|].
  exact (reachable_file_is_last_save once_created once_created_reachable).
Defined.

Lemma reachable_records_kept_witness :
  reachable twice_created
  ∧ ∃ steps,
      load (file twice_created) = Normal steps ∧ Forall kept_record steps.
Proof.
  split; [exact twice_created_reachable|].
  exact (reachable_records_kept twice_created twice_created_reachable).
Defined.


(** An update without a body of the second record. *)
Lemma put_steps_empty_patch_witness :
  (load (file stocked) = Normal two_steps
   ∧ findIndex (has_id "1700000000000-8f3a1c") two_steps = Normal (Some 1)
   ∧ two_steps !! 1 = Some (JObj stored_fields)
   ∧ required_missing (JObj stored_fields) = false
   ∧ normal_commands (stored_fields !! "commands")
   ∧ normal_vars (stored_fields !! "vars"))
  ∧ put_steps "1700000000000-8f3a1c" None later_env stocked
    = (Normal (Response 200 (Some (JObj touched_fields))),
       saved (<[1 := JObj touched_fields]> two_steps) (ensured stocked)).
Proof.
  assert (findIndex (has_id "1700000000000-8f3a1c") two_steps
          = Normal (Some 1)) as Hfind by (vm_compute; reflexivity).
  assert (required_missing (JObj stored_fields) = false) as Hreq
    by (vm_compute; reflexivity).
  assert (normal_commands (stored_fields !! "commands")) as Hc.
  { right. exists ["cp {{p}} /tmp"]. split; [done|]. vm_compute. reflexivity. }
  assert (normal_vars (stored_fields !! "vars")) as Hv
    by (left; vm_compute; reflexivity).
  split; [by repeat split|].
  exact (put_steps_empty_patch "1700000000000-8f3a1c" later_env stocked
           two_steps 1 stored_fields eq_refl Hfind eq_refl Hreq Hc Hv).
Defined.

(** A create request without a body on a data file that is not JSON. *)
Lemma post_steps_requires_witness :
  ("title" ∈ required_fields
   ∧ truthy (prop (or_empty None) "title") = false)
  ∧ post_steps None sample_env corrupted
    = (Normal (Response 400 (Some (message required_message))), corrupted).
Proof.
  assert ("title" ∈ required_fields) as Hk by apply list_elem_of_here.
  split; [by split|].
  exact (post_steps_requires None sample_env corrupted "title" Hk eq_refl).
Defined.

(** An update after one create request. *)
Lemma printable_request_no_TypeError_witness :
  (reachable once_created
   ∧ request_printable (PutSteps (newId sample_env) (Some title_patch)) = true)
  ∧ (handle (PutSteps (newId sample_env) (Some title_patch)) later_env
       once_created).1 ≠ Throw TypeError.
Proof.
  assert (request_printable (PutSteps (newId sample_env) (Some title_patch))
          = true) as Hp by (vm_compute; reflexivity).
  split; [split; [exact once_created_reachable|exact Hp]|].
  exact (printable_request_no_TypeError _ later_env once_created
           once_created_reachable Hp).
Defined.

(** A delete of the second record, then an update of it. *)
Lemma delete_then_update_witness :
  (load (file stocked) = Normal two_steps
   ∧ Forall (λ s, s ≠ JNull) two_steps
   ∧ answered (delete_steps "1700000000000-8f3a1c" stocked) = Normal 204)
  ∧ (put_steps "1700000000000-8f3a1c" (Some title_patch) later_env
       (delete_steps "1700000000000-8f3a1c" stocked).2).1
    = Normal (Response 404 (Some (message "not found")))
  ∧ Forall (λ s, matching "1700000000000-8f3a1c" s = false)
      (filter (λ s, ¬ matching "1700000000000-8f3a1c" s) two_steps)
  ∧ load (file (delete_steps "1700000000000-8f3a1c" stocked).2)
    = Normal (filter (λ s, ¬ matching "1700000000000-8f3a1c" s) two_steps).
Proof.
  assert (Forall (λ s : json, s ≠ JNull) two_steps) as Hnn
    by (repeat constructor; discriminate).
  assert (answered (delete_steps "1700000000000-8f3a1c" stocked) = Normal 204)
    as Hdel by (vm_compute; reflexivity).
  split; [by repeat split|].
  exact (delete_then_update "1700000000000-8f3a1c" (Some title_patch) later_env
           stocked two_steps eq_refl Hnn Hdel).
Defined.

(** The create request of the samples stores no [updatedAt]. *)
Lemma post_steps_drops_other_fields_witness :
  (answered (post_steps (Some sample_body) sample_env stocked) = Normal 201
   ∧ "updatedAt" ∉ created_fields)
  ∧ answered_field "updatedAt" (post_steps (Some sample_body) sample_env stocked)
    = Normal None
  ∧ stored_field "updatedAt" (post_steps (Some sample_body) sample_env stocked).2
    = (λ l, None :: l) <$> stored_field "updatedAt" stocked.
Proof.
  assert (answered (post_steps (Some sample_body) sample_env stocked)
          = Normal 201) as Hpost by (vm_compute; reflexivity).
  assert ("updatedAt" ∉ created_fields) as Hk.
  { unfold created_fields. rewrite !not_elem_of_cons. repeat split; try done.
    apply not_elem_of_nil. }
  split; [by split|].
  exact (post_steps_drops_other_fields (Some sample_body) sample_env stocked
           "updatedAt" Hpost Hk).
Defined.
